(** * GCP guardrail: the Rego policy evaluator and the admission controller

    A shallow embedding of two Go packages of the repository,

      - [pkg/rego] (the policy evaluator: [NewEvaluator], [loadPolicies],
        [Evaluate], [EvaluateAll]), and
      - [controller] (the admission webhook: [handleAdmissionRequest],
        [evaluateRequest], [normalizeKind]),

    with the properties of the specification stated and proved over it.

    What lies outside the repository is taken as a parameter of the
    development: the OPA engine ([rego.New(...).Eval]), the file system
    ([filepath.Walk], [os.ReadFile]), the Rego parser ([ast.ParseModule]),
    the Kubernetes deserializer and [strings.ToLower]. *)

From Stdlib Require Import String Ascii ZArith.
From stdpp Require Import base gmap strings list fin_maps sorting.

Set Warnings "-register-all".
Open Scope string_scope.
Open Scope list_scope.

(** ** Go runtime values *)

(** A Go [error] is carried by its message; [fmt.Errorf("...: %w", err)]
    prefixes the message of the wrapped error. *)
Abbreviation error := string (only parsing).

(** A Go [(T, error)] result where exactly one side is set. *)
Inductive result (A : Type) : Type :=
| Ok (a : A)
| Err (err : error).
Arguments Ok {A} a.
Arguments Err {A} err.

(** Values of type [interface{}] as the evaluator and the controller
    handle them. *)
Inductive GoValue : Type :=
| VNil
| VBool (b : bool)
| VString (s : string)
| VBytes (raw : string)
| VRawExtension (raw : string)
| VSlice (vs : list GoValue)
| VMap (kvs : list (string * GoValue)).

(** What a run leaves behind besides its result: the calls into the
    collaborators, in program order. *)
Inductive Event : Type :=
| EvLog (msg : string)
| EvDecode (body : string)
| EvEvaluate (packagePath : string) (input : GoValue)
| EvQuery (query : string) (input : GoValue).

(** A Go call either returns or panics. *)
Inductive exec (A : Type) : Type :=
| Done (a : A)
| Panicked (why : string).
Arguments Done {A} a.
Arguments Panicked {A} why.

(** ** Computations over a mutable receiver

    [Go S A]: a method with receiver state [S]; it yields how the call ended,
    the receiver afterwards and the events of the call. *)
Record run (S A : Type) : Type := Run {
  outcome : exec A;
  after : S;
  trace : list Event
}.
Arguments Run {S A} outcome after trace.
Arguments outcome {S A} r.
Arguments after {S A} r.
Arguments trace {S A} r.

Definition Go (S A : Type) : Type := S -> run S A.

Definition go_ret {S A} (a : A) : Go S A :=
  fun s => Run (Done a) s [].

Definition go_bind {S A B} (m : Go S A) (k : A -> Go S B) : Go S B :=
  fun s =>
    let r := m s in
    match outcome r with
    | Done a =>
        let r' := k a (after r) in
        Run (outcome r') (after r') (trace r ++ trace r')
    | Panicked why => Run (Panicked why) (after r) (trace r)
    end.

#[global] Instance Go_ret {S} : MRet (Go S) := fun A => @go_ret S A.
#[global] Instance Go_bind {S} : MBind (Go S) := fun A B k m => @go_bind S A B m k.

Definition go_get {S} : Go S S :=
  fun s => Run (Done s) s [].

Definition go_modify {S} (f : S -> S) : Go S unit :=
  fun s => Run (Done tt) (f s) [].

Definition go_emit {S} (ev : Event) : Go S unit :=
  fun s => Run (Done tt) s [ev].

Definition go_panic {S A} (why : string) : Go S A :=
  fun s => Run (Panicked why) s [].

Definition go_lift {S A} (x : exec A) : Go S A :=
  fun s => Run x s [].

(** Go fixes no order for [for k, v := range m] over a map; a run of the
    program comes with the order its runtime picks, some enumeration of the
    map's entries. *)
Class MapRange : Type := {
  range_map : forall {V : Type}, gmap string V -> list (string * V);
  range_map_perm : forall (V : Type) (m : gmap string V), range_map m ≡ₚ map_to_list m
}.

(** ** Go's [strings] package, as far as the code uses it *)

(** [strings.Join(elems, sep)]. *)
Fixpoint strings_Join (elems : list string) (sep : string) : string :=
  match elems with
  | [] => ""
  | [x] => x
  | x :: rest => x +:+ sep +:+ strings_Join rest sep
  end.

(** [strings.HasSuffix(s, suffix)]. *)
Definition strings_HasSuffix (s suffix : string) : bool :=
  let n := String.length s in
  let k := String.length suffix in
  (k <=? n)%nat && String.eqb (substring (n - k) k s) suffix.

(** ** Package [rego] *)

Module rego.

(** [rego.ResultSet]: one [Result] per solution of the query, each with the
    values of the query's expressions. *)
Record ExpressionValue : Type := {
  Value : GoValue;
  Text : string
}.

Record Result : Type := {
  Expressions : list ExpressionValue
}.

Definition ResultSet : Type := list Result.

(** [Violation] represents a policy violation. *)
Record Violation : Type := {
  Message : string;
  Severity : string;
  Policy : string
}.

(** [EvaluationResult] contains the results of a policy evaluation. *)
Record EvaluationResult : Type := {
  Violations : list Violation;
  Warnings : list Violation;
  PassCount : Z;
  FailCount : Z;
  WarnCount : Z
}.

(** One call of the callback that [filepath.Walk] makes: the path visited,
    whether [info.IsDir()], and the error Walk passes in, if any. *)
Record Visit : Type := {
  visitPath : string;
  visitIsDir : bool;
  visitErr : option error
}.

(** What the package takes from outside the repository: OPA ([ast], [rego],
    [storage/inmem]), [path/filepath] and [os]. *)
Class Backend : Type := {
  (** [*ast.Module], [storage.Store] and [context.Context]: the code only
      passes them on. *)
  AstModule : Type;
  Store : Type;
  Ctx : Type;
  (** [module.Package.Path], as the segments [EvaluateAll] joins with dots. *)
  Package_Path : AstModule -> list string;
  (** [inmem.New()]. *)
  inmem_New : Store;
  (** [rego.New(rego.Query(q), rego.Store(s), rego.Modules(ms),
      rego.Input(input)).Eval(ctx)]. *)
  rego_Eval :
    string -> Store -> gmap string AstModule -> GoValue -> Ctx -> result ResultSet;
  (** [filepath.Walk(dir, fn)] calls [fn] on these visits, in this order,
      for as long as [fn] returns nil. *)
  Walk_visits : string -> list Visit;
  (** [os.ReadFile(path)]. *)
  os_ReadFile : string -> result string;
  (** [ast.ParseModule(path, content)]. *)
  ast_ParseModule : string -> string -> result AstModule
}.

Section Evaluator.
Context {B : Backend}.

(** [Evaluator] is responsible for evaluating OPA policies. *)
Record Evaluator : Type := {
  policyDirs : list string;
  modules : gmap string AstModule;
  ctx : Ctx;
  store : Store
}.

(** [e.modules[path] = module]. *)
Definition set_module (path : string) (module : AstModule) (e : Evaluator) : Evaluator :=
  {| policyDirs := policyDirs e;
     modules := <[path := module]> (modules e);
     ctx := ctx e;
     store := store e |}.

(** The function literal that [loadPolicies] hands to [filepath.Walk]. *)
Definition loadFile (v : Visit) : Go Evaluator (option error) :=
  match visitErr v with
  | Some err => mret (Some err)
  | None =>
      if negb (visitIsDir v) && strings_HasSuffix (visitPath v) ".rego" then
        match os_ReadFile (visitPath v) with
        | Err err =>
            mret (Some ("failed to read policy file " +:+ visitPath v +:+ ": " +:+ err))
        | Ok content =>
            match ast_ParseModule (visitPath v) content with
            | Err err =>
                mret (Some ("failed to parse policy file " +:+ visitPath v +:+ ": " +:+ err))
            | Ok module =>
                go_modify (set_module (visitPath v) module);;
                mret None
            end
        end
      else mret None
  end.

(** [filepath.Walk]: the walk stops at the first error its callback returns
    and returns that error. *)
Fixpoint filepath_Walk {S} (visits : list Visit) (fn : Visit -> Go S (option error))
  : Go S (option error) :=
  match visits with
  | [] => mret None
  | v :: rest =>
      r ← fn v;
      match r with
      | Some err => mret (Some err)
      | None => filepath_Walk rest fn
      end
  end.

(** The [for _, dir := range e.policyDirs] loop of [loadPolicies]. *)
Fixpoint loadDirs (dirs : list string) : Go Evaluator (option error) :=
  match dirs with
  | [] => mret None
  | dir :: rest =>
      r ← filepath_Walk (Walk_visits dir) loadFile;
      match r with
      | Some err => mret (Some ("failed to load policies from " +:+ dir +:+ ": " +:+ err))
      | None => loadDirs rest
      end
  end.

(** [loadPolicies] loads all .rego files from the specified directories. *)
Definition loadPolicies : Go Evaluator (option error) :=
  e ← go_get;
  loadDirs (policyDirs e).

(** [NewEvaluator] creates a new OPA policy evaluator. *)
Definition NewEvaluator (ctx0 : Ctx) (dirs : list string) : exec (result Evaluator) :=
  let e := {| policyDirs := dirs; modules := ∅; ctx := ctx0; store := inmem_New |} in
  let r := loadPolicies e in
  match outcome r with
  | Done (Some err) => Done (Err err)
  | Done None => Done (Ok (after r))
  | Panicked why => Panicked why
  end.

(** One [rego.New(...).Eval(e.ctx)] against the evaluator's store and
    modules. *)
Definition eval (query : string) (input : GoValue) : Go Evaluator (result ResultSet) :=
  e ← go_get;
  go_emit (EvQuery query input);;
  mret (rego_Eval query (store e) (modules e) input (ctx e)).

(** The loop [for _, v := range xs.([]interface{})] that appends one
    [Violation] per element; [v.(string)] panics on anything but a string. *)
Fixpoint appendFindings (acc : list Violation) (vs : list GoValue)
    (severity packagePath : string) : exec (list Violation) :=
  match vs with
  | [] => Done acc
  | VString msg :: rest =>
      appendFindings
        (acc ++ [{| Message := msg; Severity := severity; Policy := packagePath |}])
        rest severity packagePath
  | _ :: _ => Panicked "interface conversion: interface {} is not string"
  end.

(** [if len(rs) > 0 && len(rs[0].Expressions) > 0 { xs := rs[0].Expressions[0].Value;
    if xs != nil { for ... range xs.([]interface{}) ... } }]. *)
Definition findings (rs : ResultSet) (severity packagePath : string)
  : exec (list Violation) :=
  match rs with
  | r :: _ =>
      match Expressions r with
      | ev :: _ =>
          match Value ev with
          | VNil => Done []
          | VSlice vs => appendFindings [] vs severity packagePath
          | _ => Panicked "interface conversion: interface {} is not []interface {}"
          end
      | [] => Done []
      end
  | [] => Done []
  end.

(** [Evaluate] evaluates the given input against loaded policies. *)
Definition Evaluate (packagePath : string) (input : GoValue)
  : Go Evaluator (result EvaluationResult) :=
  go_emit (EvEvaluate packagePath input);;
  rs ← eval ("data." +:+ packagePath) input;
  match rs with
  | Err err => mret (Err ("evaluation failed: " +:+ err))
  | Ok _ =>
      denyRs ← eval ("data." +:+ packagePath +:+ ".deny") input;
      match denyRs with
      | Err err => mret (Err ("deny rule evaluation failed: " +:+ err))
      | Ok denyRs =>
          warnRs ← eval ("data." +:+ packagePath +:+ ".warn") input;
          match warnRs with
          | Err err => mret (Err ("warning rule evaluation failed: " +:+ err))
          | Ok warnRs =>
              violations ← go_lift (findings denyRs "ERROR" packagePath);
              warnings ← go_lift (findings warnRs "WARNING" packagePath);
              mret (Ok {| Violations := violations;
                          Warnings := warnings;
                          PassCount := 0;
                          FailCount := Z.of_nat (length violations);
                          WarnCount := Z.of_nat (length warnings) |})
          end
      end
  end.

(** The first loop of [EvaluateAll]:
    [packagePaths[strings.Join(module.Package.Path, ".")] = true] for every
    module, in the order the range visits them. *)
Definition collectPackagePaths (visited : list (string * AstModule)) : gmap string bool :=
  foldl (fun packagePaths pm => <[strings_Join (Package_Path pm.2) "." := true]> packagePaths)
        ∅ visited.

(** The second loop of [EvaluateAll]: the first error returns [nil, err]. *)
Fixpoint evaluateEach (packagePaths : list string) (input : GoValue)
    (results : list EvaluationResult) : Go Evaluator (result (list EvaluationResult)) :=
  match packagePaths with
  | [] => mret (Ok results)
  | packagePath :: rest =>
      r ← Evaluate packagePath input;
      match r with
      | Err err =>
          mret (Err ("failed to evaluate package " +:+ packagePath +:+ ": " +:+ err))
      | Ok result => evaluateEach rest input (results ++ [result])
      end
  end.

(** [EvaluateAll] evaluates input against all loaded policies. *)
Definition EvaluateAll {R : MapRange} (input : GoValue)
  : Go Evaluator (result (list EvaluationResult)) :=
  e ← go_get;
  let packagePaths := collectPackagePaths (range_map (modules e)) in
  evaluateEach (range_map packagePaths).*1 input [].

(** The package paths [Evaluate] was called on during a run, with the
    input of each call. *)
Definition evaluated (t : list Event) : list (string * GoValue) :=
  omap (fun ev => match ev with
                  | EvEvaluate p i => Some (p, i)
                  | _ => None
                  end) t.

End Evaluator.
End rego.

(** ** Kubernetes API types, as far as the controller reads or writes them *)

Module RawExtension.
Record t : Type := { Raw : string }.
End RawExtension.

Module GroupVersionKind.
Record t : Type := { Group : string; Version : string; Kind : string }.
End GroupVersionKind.

Module TypeMeta.
Record t : Type := { Kind : string; APIVersion : string }.
End TypeMeta.

Module Status.
Record t : Type := { Message : string }.
End Status.

Module AdmissionRequest.
Record t : Type := {
  UID : string;
  Kind : GroupVersionKind.t;
  Name : string;
  Namespace : string;
  Operation : string;
  Object : RawExtension.t;
  OldObject : RawExtension.t;
  Options : RawExtension.t
}.
End AdmissionRequest.

Module AdmissionResponse.
Record t : Type := {
  UID : string;
  Allowed : bool;
  Result : option Status.t
}.
End AdmissionResponse.

Module AdmissionReview.
Record t : Type := {
  TypeMeta : TypeMeta.t;
  Request : option AdmissionRequest.t;
  Response : option AdmissionResponse.t
}.
End AdmissionReview.

(** ** Package [net/http], as far as the handler uses it *)

Module http.

Definition StatusBadRequest : Z := 400.
Definition StatusUnsupportedMediaType : Z := 415.

(** [*http.Request]: the header map and the body ([None] for a nil body). *)
Record Request : Type := {
  Header : gmap string (list string);
  Body : option string
}.

(** [Header.Get(key)] for a key already in canonical form: the first value
    stored under it, or the empty string. *)
Definition Header_Get (h : gmap string (list string)) (key : string) : string :=
  match h !! key with
  | Some (v :: _) => v
  | _ => ""
  end.

(** What a handler wrote to its [http.ResponseWriter]: [http.Error(w, msg,
    code)], or a JSON-encoded review (with the implicit status 200). *)
Inductive Reply : Type :=
| Error (msg : string) (code : Z)
| JSON (review : AdmissionReview.t).

End http.

(** ** Package [main] of the controller *)

Module controller.
Import http.

(** What the controller takes from outside the repository. *)
Class Kube : Type := {
  (** What [r.Body.Read(body)] hands back for the bytes of the request
      body.  (The source assigns Read's first return value to [body].) *)
  Body_Read : string -> result string;
  (** [deserializer.Decode(body, nil, &reviewRequest)]. *)
  Decode : string -> result AdmissionReview.t;
  (** [strings.ToLower]. *)
  strings_ToLower : string -> string
}.

Section Controller.
Context {B : rego.Backend} {K : Kube}.

(** Normalize the Kubernetes kind name. *)
Definition normalizeKind (kind : string) : string :=
  strings_ToLower kind.

(** The loop of [evaluateRequest] that builds [reason]; [i] is the index of
    the next violation. *)
Fixpoint joinReason (i : nat) (reason : string) (violations : list rego.Violation)
  : string :=
  match violations with
  | [] => reason
  | violation :: rest =>
      joinReason (S i)
        (if (i =? 0)%nat then rego.Message violation
         else reason +:+ "; " +:+ rego.Message violation)
        rest
  end.

(** The input document that [evaluateRequest] builds from the request. *)
Definition requestInput (request : AdmissionRequest.t) : GoValue :=
  VMap [("kind", VString (GroupVersionKind.Kind (AdmissionRequest.Kind request)));
        ("name", VString (AdmissionRequest.Name request));
        ("namespace", VString (AdmissionRequest.Namespace request));
        ("operation", VString (AdmissionRequest.Operation request));
        ("object", VBytes (RawExtension.Raw (AdmissionRequest.Object request)));
        ("oldObject", VBytes (RawExtension.Raw (AdmissionRequest.OldObject request)));
        ("parameters", VRawExtension (RawExtension.Raw (AdmissionRequest.Options request)))].

(** The package path that [evaluateRequest] derives from the resource kind. *)
Definition requestPackagePath (request : AdmissionRequest.t) : string :=
  "kubernetes.admission." +:+
  normalizeKind (GroupVersionKind.Kind (AdmissionRequest.Kind request)).

(** Evaluate the admission request against the policies.  The receiver
    [ac] holds nothing but the pointer to its evaluator. *)
Definition evaluateRequest (request : AdmissionRequest.t)
  : Go rego.Evaluator (bool * string * option error) :=
  let input := requestInput request in
  let packagePath := requestPackagePath request in
  r ← rego.Evaluate packagePath input;
  match r with
  | Err err => mret (false, "", Some ("policy evaluation failed: " +:+ err))
  | Ok result =>
      if (0 <? length (rego.Violations result))%nat then
        mret (false, joinReason 0 "" (rego.Violations result), None)
      else mret (true, "", None)
  end.

(** The first lines of the handler: the bytes it goes on to decode. *)
Definition readBody (r : Request) : string :=
  match Body r with
  | Some rd => match Body_Read rd with Ok data => data | Err _ => "" end
  | None => ""
  end.

(** Handle the admission review request. *)
Definition handleAdmissionRequest (r : Request) : Go rego.Evaluator Reply :=
  let body := readBody r in
  let contentType := Header_Get (Header r) "Content-Type" in
  if negb (String.eqb contentType "application/json") then
    go_emit (EvLog ("contentType=" +:+ contentType +:+ ", expected application/json"));;
    mret (Error "Invalid Content-Type" StatusUnsupportedMediaType)
  else
    go_emit (EvDecode body);;
    match Decode body with
    | Err err =>
        go_emit (EvLog ("Could not decode body: " +:+ err));;
        mret (Error "Invalid AdmissionReview request" StatusBadRequest)
    | Ok reviewRequest =>
        match AdmissionReview.Request reviewRequest with
        | None => go_panic "invalid memory address or nil pointer dereference"
        | Some request =>
            let uid := AdmissionRequest.UID request in
            '(allowed, reason, err) ← evaluateRequest request;
            response ←
              match err with
              | Some err =>
                  go_emit (EvLog ("Error evaluating request: " +:+ err));;
                  mret {| AdmissionResponse.UID := uid;
                          AdmissionResponse.Allowed := false;
                          AdmissionResponse.Result :=
                            Some {| Status.Message := "Error evaluating request: " +:+ err |} |}
              | None =>
                  mret {| AdmissionResponse.UID := uid;
                          AdmissionResponse.Allowed := allowed;
                          AdmissionResponse.Result :=
                            if allowed then None
                            else Some {| Status.Message := reason |} |}
              end;
            mret (JSON {| AdmissionReview.TypeMeta := AdmissionReview.TypeMeta reviewRequest;
                          AdmissionReview.Request := None;
                          AdmissionReview.Response := Some response |})
        end
    end.

(** [context.Background()]. *)
Class Background : Type := {
  context_Background : rego.Ctx
}.

(** [admissionController]: the pointer to the evaluator is its only field. *)
Record admissionController : Type := {
  evaluator : rego.Evaluator
}.

(** Initialize the admission controller. *)
Definition newAdmissionController {G : Background} (policyDirs : list string)
  : exec (result admissionController) :=
  match rego.NewEvaluator context_Background policyDirs with
  | Done (Err err) => Done (Err ("failed to create policy evaluator: " +:+ err))
  | Done (Ok e) => Done (Ok {| evaluator := e |})
  | Panicked why => Panicked why
  end.

End Controller.
End controller.

(** ** Package [main] of the playground *)

Module playground.

Definition StatusBadRequest : Z := 400.
Definition StatusMethodNotAllowed : Z := 405.
Definition StatusInternalServerError : Z := 500.
Definition MethodPost : string := "POST".

(** [EvaluationRequest], the JSON body of [POST /evaluate]. *)
Record EvaluationRequest : Type := {
  Input : string;
  PackagePath : string;
  PolicyText : string
}.

(** The fields of [*http.Request] that the playground reads.  The body of
    a request that a server hands to a handler is never nil. *)
Record Request : Type := {
  Method : string;
  Body : string
}.

(** [fs.DirEntry], as far as [listDirectories] asks it. *)
Record DirEntry : Type := {
  Name : string;
  IsDir : bool
}.

(** What [handleEvaluate] wrote to its [http.ResponseWriter]:
    [http.Error(w, msg, code)], or the JSON-encoded result (with the
    implicit status 200). *)
Inductive Reply : Type :=
| Error (msg : string) (code : Z)
| JSON (result : rego.EvaluationResult).

(** What the playground takes from outside the repository. *)
Class Json : Type := {
  (** [json.NewDecoder(r.Body).Decode(&req)]. *)
  json_Decode : string -> result EvaluationRequest;
  (** [json.Unmarshal([]byte(req.Input), &input)] into an [interface{}]; how
      a JSON number is carried is left to this parameter. *)
  json_Unmarshal : string -> result GoValue;
  (** [os.ReadDir(dir)]. *)
  os_ReadDir : string -> result (list DirEntry)
}.

Section Playground.
Context {B : rego.Backend} {J : Json}.

(** [handleEvaluate] evaluates policy against input.  The receiver [s] is
    used for its evaluator only. *)
Definition handleEvaluate (r : Request) : Go rego.Evaluator Reply :=
  if negb (String.eqb (Method r) MethodPost) then
    mret (Error "Method not allowed" StatusMethodNotAllowed)
  else
    go_emit (EvDecode (Body r));;
    match json_Decode (Body r) with
    | Err err => mret (Error ("Failed to parse request: " +:+ err) StatusBadRequest)
    | Ok req =>
        match json_Unmarshal (Input req) with
        | Err err => mret (Error ("Invalid input JSON: " +:+ err) StatusBadRequest)
        | Ok input =>
            result ← rego.Evaluate (PackagePath req) input;
            match result with
            | Err err =>
                mret (Error ("Policy evaluation failed: " +:+ err) StatusInternalServerError)
            | Ok result => mret (JSON result)
            end
        end
    end.

(** The loop of [listDirectories]: [dirs = append(dirs, entry.Name())] for
    the entries that are directories. *)
Fixpoint appendDirs (dirs : list string) (entries : list DirEntry) : list string :=
  match entries with
  | [] => dirs
  | entry :: rest =>
      appendDirs (if IsDir entry then dirs ++ [Name entry] else dirs) rest
  end.

(** [listDirectories] returns a list of subdirectories in the specified
    directory. *)
Definition listDirectories (dir : string) : result (list string) :=
  match os_ReadDir dir with
  | Err err => Err err
  | Ok entries => Ok (appendDirs [] entries)
  end.

End Playground.
End playground.

(** * Vocabulary of the statements *)

Import rego controller http.

Section EvaluatorVocabulary.
Context {B : Backend}.

(** Some loaded module declares the package [packagePath]. *)
Definition declares (mods : gmap string AstModule) (packagePath : string) : Prop :=
  exists path module,
    mods !! path = Some module /\ strings_Join (Package_Path module) "." = packagePath.

(** The result that carries no finding. *)
Definition noFindings : EvaluationResult :=
  {| Violations := []; Warnings := []; PassCount := 0; FailCount := 0; WarnCount := 0 |}.

(** The finding [Evaluate] makes of one message. *)
Definition finding (severity packagePath msg : string) : Violation :=
  {| Message := msg; Severity := severity; Policy := packagePath |}.

(** The answer of the engine carries these messages: it is empty, or its
    first expression has no value, or its value is the list of the
    messages. *)
Definition carries (rs : ResultSet) (msgs : list string) : Prop :=
  match rs with
  | r :: _ =>
      match Expressions r with
      | ev :: _ =>
          (Value ev = VNil /\ msgs = []) \/ Value ev = VSlice (VString <$> msgs)
      | [] => msgs = []
      end
  | [] => msgs = []
  end.

(** How a call of [Evaluate] ends, read off the three answers of the engine. *)
Definition verdict (e : Evaluator) (packagePath : string) (input : GoValue)
  : exec (result EvaluationResult) :=
  let ask suffix :=
    rego_Eval ("data." +:+ packagePath +:+ suffix) (store e) (modules e) input (ctx e) in
  match rego_Eval ("data." +:+ packagePath) (store e) (modules e) input (ctx e) with
  | Err err => Done (Err ("evaluation failed: " +:+ err))
  | Ok _ =>
      match ask ".deny" with
      | Err err => Done (Err ("deny rule evaluation failed: " +:+ err))
      | Ok denyRs =>
          match ask ".warn" with
          | Err err => Done (Err ("warning rule evaluation failed: " +:+ err))
          | Ok warnRs =>
              match findings denyRs "ERROR" packagePath with
              | Panicked why => Panicked why
              | Done violations =>
                  match findings warnRs "WARNING" packagePath with
                  | Panicked why => Panicked why
                  | Done warnings =>
                      Done (Ok {| Violations := violations;
                                  Warnings := warnings;
                                  PassCount := 0;
                                  FailCount := Z.of_nat (length violations);
                                  WarnCount := Z.of_nat (length warnings) |})
                  end
              end
          end
      end
  end.

(** What the walk callback returns on a visit; it depends on the file
    system and the parser only, not on the modules loaded so far. *)
Definition loadError (v : Visit) : option error :=
  match visitErr v with
  | Some err => Some err
  | None =>
      if negb (visitIsDir v) && strings_HasSuffix (visitPath v) ".rego" then
        match os_ReadFile (visitPath v) with
        | Err err => Some ("failed to read policy file " +:+ visitPath v +:+ ": " +:+ err)
        | Ok content =>
            match ast_ParseModule (visitPath v) content with
            | Err err =>
                Some ("failed to parse policy file " +:+ visitPath v +:+ ": " +:+ err)
            | Ok _ => None
            end
        end
      else None
  end.

(** A visit of a regular file with the policy extension that reads but does
    not parse. *)
Definition failsToParse (v : Visit) (err : error) : Prop :=
  visitErr v = None /\
  visitIsDir v = false /\
  strings_HasSuffix (visitPath v) ".rego" = true /\
  exists content,
    os_ReadFile (visitPath v) = Ok content /\
    ast_ParseModule (visitPath v) content = Err err.

(** The error [loadPolicies] returns for a list of directories. *)
Fixpoint dirsError (dirs : list string) : option error :=
  match dirs with
  | [] => None
  | dir :: rest =>
      match head (omap loadError (Walk_visits dir)) with
      | Some err => Some ("failed to load policies from " +:+ dir +:+ ": " +:+ err)
      | None => dirsError rest
      end
  end.

(** The calls of [Evaluate] on the given package paths, in order, all with
    the same input. *)
Definition calls (packagePaths : list string) (input : GoValue) : list (string * GoValue) :=
  (fun p => (p, input)) <$> packagePaths.

(** [Evaluate] returns a result on each of the package paths. *)
Definition allEvaluate (e : Evaluator) (input : GoValue)
    (packagePaths : list string) (results : list EvaluationResult) : Prop :=
  Forall2 (fun p res => outcome (Evaluate p input e) = Done (Ok res)) packagePaths results.

(** The engine fixes no order for the elements of a rule's set: asked
    again on the same store, modules and input, it may list them in another
    order.  [withEngine engine] is the backend with [engine] for its
    engine, everything else the same: the backend as it answers another
    call. *)
Definition withEngine
    (engine : string -> Store -> gmap string AstModule -> GoValue -> Ctx -> result ResultSet)
  : Backend :=
  {| AstModule := AstModule;
     Store := Store;
     Ctx := Ctx;
     Package_Path := Package_Path;
     inmem_New := inmem_New;
     rego_Eval := engine;
     Walk_visits := Walk_visits;
     os_ReadFile := os_ReadFile;
     ast_ParseModule := ast_ParseModule |}.

(** The same evaluator (directories, modules, context, store), in front of
    that engine. *)
Definition atEngine
    (engine : string -> Store -> gmap string AstModule -> GoValue -> Ctx -> result ResultSet)
    (e : Evaluator) : @Evaluator (withEngine engine) :=
  @Build_Evaluator (withEngine engine) (policyDirs e) (modules e) (ctx e) (store e).

(** On the evaluator [e], [engine] answers the three queries of a call of
    [Evaluate], its [deny] answer carrying the messages [denied] and its
    [warn] answer the messages [warned]. *)
Definition answers
    (engine : string -> Store -> gmap string AstModule -> GoValue -> Ctx -> result ResultSet)
    (e : Evaluator) (packagePath : string) (input : GoValue)
    (denied warned : list string) : Prop :=
  exists rs denyRs warnRs,
    engine ("data." +:+ packagePath) (store e) (modules e) input (ctx e) = Ok rs /\
    engine ("data." +:+ packagePath +:+ ".deny") (store e) (modules e) input (ctx e)
      = Ok denyRs /\
    engine ("data." +:+ packagePath +:+ ".warn") (store e) (modules e) input (ctx e)
      = Ok warnRs /\
    carries denyRs denied /\
    carries warnRs warned.

End EvaluatorVocabulary.

Section GatewayVocabulary.
Context {B : Backend} {K : Kube}.

(** The verdict of [evaluateRequest], read off the outcome of [Evaluate]. *)
Definition decisionOf (o : exec (result EvaluationResult))
  : exec (bool * string * option error) :=
  match o with
  | Done (Err err) => Done (false, "", Some ("policy evaluation failed: " +:+ err))
  | Done (Ok result) =>
      match Violations result with
      | [] => Done (true, "", None)
      | _ :: _ => Done (false, strings_Join (Message <$> Violations result) "; ", None)
      end
  | Panicked why => Panicked why
  end.

(** The response the handler fills in from what [evaluateRequest] returned. *)
Definition respond (uid : string) (decision : bool * string * option error)
  : AdmissionResponse.t :=
  match decision with
  | (_, _, Some err) =>
      {| AdmissionResponse.UID := uid;
         AdmissionResponse.Allowed := false;
         AdmissionResponse.Result :=
           Some {| Status.Message := "Error evaluating request: " +:+ err |} |}
  | (allowed, reason, None) =>
      {| AdmissionResponse.UID := uid;
         AdmissionResponse.Allowed := allowed;
         AdmissionResponse.Result :=
           if allowed then None else Some {| Status.Message := reason |} |}
  end.

(** The review the handler encodes. *)
Definition reviewOf (reviewRequest : AdmissionReview.t) (response : AdmissionResponse.t)
  : AdmissionReview.t :=
  {| AdmissionReview.TypeMeta := AdmissionReview.TypeMeta reviewRequest;
     AdmissionReview.Request := None;
     AdmissionReview.Response := Some response |}.

(** The gateway's reason as the specification words it: the violation
    messages sorted lexically, then joined with the delimiter. *)
Definition spec_sortedReason (violations : list Violation) : string :=
  strings_Join (merge_sort String.le (Message <$> violations)) "; ".

(** A request that passes the content-type check and decodes to a review
    with a request in it. *)
Definition decodesTo (r : Request) (reviewRequest : AdmissionReview.t)
    (request : AdmissionRequest.t) : Prop :=
  Header_Get (Header r) "Content-Type" = "application/json" /\
  Decode (readBody r) = Ok reviewRequest /\
  AdmissionReview.Request reviewRequest = Some request.

End GatewayVocabulary.

Section LoaderVocabulary.
Context {B : Backend}.

(** Every visit of the walks of these directories loads. *)
Definition loads (dirs : list string) : Prop :=
  forall d v, d ∈ dirs -> v ∈ Walk_visits d -> loadError v = None.

(** The visit is one that [loadPolicies] reads and parses: no walk error,
    not a directory, a path ending in [.rego]. *)
Definition isPolicyFile (v : Visit) : bool :=
  match visitErr v with
  | Some _ => false
  | None => negb (visitIsDir v) && strings_HasSuffix (visitPath v) ".rego"
  end.

(** The module that reading and parsing the file at [path] gives. *)
Definition parsed (path : string) : option AstModule :=
  match os_ReadFile path with
  | Ok content =>
      match ast_ParseModule path content with
      | Ok module => Some module
      | Err _ => None
      end
  | Err _ => None
  end.

(** The paths of the policy files among the visits. *)
Definition policyPaths (visits : list Visit) : list string :=
  omap (fun v => if isPolicyFile v then Some (visitPath v) else None) visits.

(** The paths of all policy files under the directories, in load order. *)
Definition allPolicyPaths (dirs : list string) : list string :=
  mjoin ((fun d => policyPaths (Walk_visits d)) <$> dirs).

(** The walks of the directories visit a policy file at [path]. *)
Definition visitedPolicy (dirs : list string) (path : string) : Prop :=
  exists d v,
    d ∈ dirs /\ v ∈ Walk_visits d /\ isPolicyFile v = true /\ visitPath v = path.

(** [e'] is [e] with the policy files at [paths] loaded. *)
Definition extends (paths : list string) (e e' : Evaluator) : Prop :=
  policyDirs e' = policyDirs e /\
  ctx e' = ctx e /\
  store e' = store e /\
  forall path,
    modules e' !! path =
    if decide (path ∈ paths) then parsed path else modules e !! path.

End LoaderVocabulary.

Section EvaluateVocabulary.
Context {B : Backend}.

(** The engine's answer to the query of the package itself. *)
Definition dataAnswer (e : Evaluator) (packagePath : string) (input : GoValue)
  : result ResultSet :=
  rego_Eval ("data." +:+ packagePath) (store e) (modules e) input (ctx e).

(** The engine's answer to the query of a rule ([.deny] or [.warn]) of the
    package. *)
Definition ruleAnswer (e : Evaluator) (packagePath rule : string) (input : GoValue)
  : result ResultSet :=
  rego_Eval ("data." +:+ packagePath +:+ rule) (store e) (modules e) input (ctx e).

(** The first value of the answer is neither nil nor a list of strings. *)
Definition illTyped (rs : ResultSet) : Prop :=
  forall msgs, ~ carries rs msgs.

End EvaluateVocabulary.

(** ** A small concrete world

    One instance of the parameters, on which the statements below are run:
    policies that carry the value of their [deny] and [warn] rules, a file
    tree with one unparsable file, a decoder that reads the UID off the
    body. *)

Module demo.

Record RegoFile : Type := {
  package : list string;
  deny : option GoValue;
  warn : option GoValue;
  fault : option error
}.

Definition ruleValue (get : RegoFile -> option GoValue) (suffix query : string)
    (ms : list (string * RegoFile)) : option GoValue :=
  let hit pm :=
    if String.eqb ("data." +:+ strings_Join (package pm.2) "." +:+ suffix) query
    then get pm.2 else None in
  head (omap hit ms).

Definition faultOf (query : string) (ms : list (string * RegoFile)) : option error :=
  let hit pm :=
    if String.prefix ("data." +:+ strings_Join (package pm.2) ".") query
    then fault pm.2 else None in
  head (omap hit ms).

Definition answer (query : string) (v : GoValue) : rego.ResultSet :=
  [{| rego.Expressions := [{| rego.Value := v; rego.Text := query |}] |}].

Definition Eval (query : string) (_ : unit) (mods : gmap string RegoFile)
    (_ : GoValue) (_ : unit) : result rego.ResultSet :=
  let ms := map_to_list mods in
  match faultOf query ms with
  | Some err => Err err
  | None =>
      match ruleValue deny ".deny" query ms with
      | Some v => Ok (answer query v)
      | None =>
          match ruleValue warn ".warn" query ms with
          | Some v => Ok (answer query v)
          | None => Ok []
          end
      end
  end.

Definition file (path : string) : rego.Visit :=
  {| rego.visitPath := path; rego.visitIsDir := false; rego.visitErr := None |}.

Definition dir (path : string) : rego.Visit :=
  {| rego.visitPath := path; rego.visitIsDir := true; rego.visitErr := None |}.

Definition Walk (root : string) : list rego.Visit :=
  if String.eqb root "policies/good" then
    [dir "policies/good"; file "policies/good/README.md"; file "policies/good/pod.rego"]
  else if String.eqb root "policies/bad" then
    [dir "policies/bad"; file "policies/bad/a.rego"; file "policies/bad/broken.rego";
     file "policies/bad/z.rego"]
  else
    [{| rego.visitPath := root; rego.visitIsDir := false;
        rego.visitErr := Some ("lstat " +:+ root +:+ ": no such file or directory") |}].

Definition ReadFile (path : string) : result string :=
  if String.eqb path "policies/bad/broken.rego" then Ok "packag kubernetes"
  else Ok "package kubernetes.admission.pod".

Definition ParseModule (path content : string) : result RegoFile :=
  if String.prefix "package " content then
    Ok {| package := [substring 8 (String.length content - 8) content];
          deny := None; warn := None; fault := None |}
  else Err "rego_parse_error: package expected".

#[export] Instance backend : rego.Backend := {|
  rego.AstModule := RegoFile;
  rego.Store := unit;
  rego.Ctx := unit;
  rego.Package_Path := package;
  rego.inmem_New := tt;
  rego.rego_Eval := Eval;
  rego.Walk_visits := Walk;
  rego.os_ReadFile := ReadFile;
  rego.ast_ParseModule := ParseModule
|}.

(** The runtime that ranges over a map in the order of [map_to_list], and
    the one that ranges in the opposite order. *)
#[export] Instance forwards : MapRange := {|
  range_map := fun V m => map_to_list m;
  range_map_perm := fun V m => reflexivity (map_to_list m)
|}.

Definition backwards : MapRange := {|
  range_map := fun V m => reverse (map_to_list m);
  range_map_perm := fun V m => reverse_Permutation (map_to_list m)
|}.

Definition lowerChar (c : ascii) : ascii :=
  let n := nat_of_ascii c in
  if (65 <=? n)%nat && (n <=? 90)%nat then ascii_of_nat (n + 32) else c.

Fixpoint ToLower (s : string) : string :=
  match s with
  | EmptyString => EmptyString
  | String c rest => String (lowerChar c) (ToLower rest)
  end.

Definition pod (uid : string) : AdmissionRequest.t := {|
  AdmissionRequest.UID := uid;
  AdmissionRequest.Kind :=
    {| GroupVersionKind.Group := ""; GroupVersionKind.Version := "v1";
       GroupVersionKind.Kind := "Pod" |};
  AdmissionRequest.Name := "web";
  AdmissionRequest.Namespace := "default";
  AdmissionRequest.Operation := "CREATE";
  AdmissionRequest.Object := {| RawExtension.Raw := "{}" |};
  AdmissionRequest.OldObject := {| RawExtension.Raw := "" |};
  AdmissionRequest.Options := {| RawExtension.Raw := "" |}
|}.

Definition review (request : option AdmissionRequest.t) : AdmissionReview.t := {|
  AdmissionReview.TypeMeta :=
    {| TypeMeta.Kind := "AdmissionReview"; TypeMeta.APIVersion := "admission.k8s.io/v1" |};
  AdmissionReview.Request := request;
  AdmissionReview.Response := None
|}.

(** The body is the UID of a Pod creation; an empty body does not decode,
    and the body [{}] decodes to a review without a request. *)
Definition DecodeBody (body : string) : result AdmissionReview.t :=
  if String.eqb body "" then Err "unexpected end of JSON input"
  else if String.eqb body "{}" then Ok (review None)
  else Ok (review (Some (pod body))).

#[export] Instance kube : controller.Kube := {|
  controller.Body_Read := fun data => Ok data;
  controller.Decode := DecodeBody;
  controller.strings_ToLower := ToLower
|}.

Definition post (contentType body : string) : http.Request := {|
  http.Header := {[ "Content-Type" := [contentType] ]};
  http.Body := Some body
|}.

Definition policy (pkg : string) (d w : option GoValue) (f : option error) : RegoFile :=
  {| package := [pkg]; deny := d; warn := w; fault := f |}.

Definition messages (msgs : list string) : option GoValue :=
  Some (VSlice (VString <$> msgs)).

Definition evaluator (mods : gmap string RegoFile) : rego.Evaluator := {|
  rego.policyDirs := ["policies/good"];
  rego.modules := mods;
  rego.ctx := tt;
  rego.store := tt
|}.

(** Pods are denied with two messages, and warned about once. *)
Definition podRules : gmap string RegoFile :=
  {[ "policies/pod.rego" :=
       policy "kubernetes.admission.pod" (messages ["privileged"; "host network"])
              (messages ["latest tag"]) None ]}.

(** Pods only draw a warning. *)
Definition podWarns : gmap string RegoFile :=
  {[ "policies/pod.rego" :=
       policy "kubernetes.admission.pod" (messages []) (messages ["latest tag"]) None ]}.

(** Pods are covered by a policy that finds nothing. *)
Definition podQuiet : gmap string RegoFile :=
  {[ "policies/pod.rego" :=
       policy "kubernetes.admission.pod" (messages []) (messages []) None ]}.

(** Evaluating the pod package fails at run time. *)
Definition podFails : gmap string RegoFile :=
  {[ "policies/pod.rego" :=
       policy "kubernetes.admission.pod" None None (Some "eval_conflict_error") ]}.

(** Two packages; evaluating the first fails, the second has one finding. *)
Definition twoPackages : gmap string RegoFile :=
  {[ "policies/iam.rego" := policy "iam" None None (Some "eval_conflict_error");
     "policies/storage.rego" := policy "storage" (messages ["public bucket"]) None None ]}.

(** The [deny] rule of the pod policy is a string, not a set of strings. *)
Definition podString : gmap string RegoFile :=
  {[ "policies/pod.rego" :=
       policy "kubernetes.admission.pod" (Some (VString "no privileged pods")) None None ]}.

(** The two denials of [podRules], without its warning. *)
Definition podRulesOnly : gmap string RegoFile :=
  {[ "policies/pod.rego" :=
       policy "kubernetes.admission.pod" (messages ["privileged"; "host network"])
              None None ]}.

#[export] Instance background : controller.Background := {|
  controller.context_Background := tt
|}.

(** The body of a playground request is its policy text; every request
    asks for the pod package with the input [{}], and an empty body is no
    request. *)
Definition DecodeRequest (body : string) : result playground.EvaluationRequest :=
  if String.eqb body "" then Err "EOF"
  else Ok {| playground.Input := "{}";
             playground.PackagePath := "kubernetes.admission.pod";
             playground.PolicyText := body |}.

Definition Unmarshal (input : string) : result GoValue :=
  if String.eqb input "{}" then Ok (VMap [])
  else Err "invalid character".

Definition ReadDir (path : string) : result (list playground.DirEntry) :=
  if String.eqb path "policies" then
    Ok [{| playground.Name := "good"; playground.IsDir := true |};
        {| playground.Name := "README.md"; playground.IsDir := false |};
        {| playground.Name := "bad"; playground.IsDir := true |}]
  else Err ("open " +:+ path +:+ ": no such file or directory").

#[export] Instance json : playground.Json := {|
  playground.json_Decode := DecodeRequest;
  playground.json_Unmarshal := Unmarshal;
  playground.os_ReadDir := ReadDir
|}.

(** What loading [policies/good] gives. *)
Definition goodEvaluator : rego.Evaluator := {|
  rego.policyDirs := ["policies/good"];
  rego.modules :=
    {[ "policies/good/pod.rego" :=
         {| package := ["kubernetes.admission.pod"];
            deny := None; warn := None; fault := None |} ]};
  rego.ctx := tt;
  rego.store := tt
|}.

(** What evaluating the pod package gives under [podRules] and under
    [podRulesOnly]. *)
Definition podRulesResult : rego.EvaluationResult := {|
  rego.Violations :=
    [{| rego.Message := "privileged"; rego.Severity := "ERROR";
        rego.Policy := "kubernetes.admission.pod" |};
     {| rego.Message := "host network"; rego.Severity := "ERROR";
        rego.Policy := "kubernetes.admission.pod" |}];
  rego.Warnings :=
    [{| rego.Message := "latest tag"; rego.Severity := "WARNING";
        rego.Policy := "kubernetes.admission.pod" |}];
  rego.PassCount := 0; rego.FailCount := 2; rego.WarnCount := 1
|}.

Definition podRulesOnlyResult : rego.EvaluationResult := {|
  rego.Violations := rego.Violations podRulesResult;
  rego.Warnings := [];
  rego.PassCount := 0; rego.FailCount := 2; rego.WarnCount := 0
|}.

Definition request (method body : string) : playground.Request :=
  {| playground.Method := method; playground.Body := body |}.

(** The engine of [Eval] as it may answer another call: the elements of
    every list in the opposite order. *)
Definition reverseValue (v : GoValue) : GoValue :=
  match v with
  | VSlice vs => VSlice (reverse vs)
  | _ => v
  end.

Definition EvalReversed (query : string) (s : unit) (mods : gmap string RegoFile)
    (input : GoValue) (c : unit) : result rego.ResultSet :=
  match Eval query s mods input c with
  | Ok rs =>
      Ok ((fun r =>
             {| rego.Expressions :=
                  (fun ev => {| rego.Value := reverseValue (rego.Value ev);
                                rego.Text := rego.Text ev |}) <$> rego.Expressions r |})
            <$> rs)
  | Err err => Err err
  end.

(** What evaluating the pod package gives under [podRules] when the engine
    answers in the opposite order. *)
Definition podRulesReversedResult : rego.EvaluationResult := {|
  rego.Violations :=
    [{| rego.Message := "host network"; rego.Severity := "ERROR";
        rego.Policy := "kubernetes.admission.pod" |};
     {| rego.Message := "privileged"; rego.Severity := "ERROR";
        rego.Policy := "kubernetes.admission.pod" |}];
  rego.Warnings := rego.Warnings podRulesResult;
  rego.PassCount := 0; rego.FailCount := 2; rego.WarnCount := 1
|}.

End demo.

(** * Properties *)

(** ** The computation monad *)

Ltac go_unfold :=
  unfold mbind, mret, Go_bind, Go_ret, go_bind, go_ret, go_emit, go_get,
    go_modify, go_lift, go_panic in *.

Ltac go_simpl := go_unfold; cbn [outcome after trace app] in *.

Lemma app_assoc_string (s1 s2 s3 : string) :
  (s1 +:+ s2) +:+ s3 = s1 +:+ (s2 +:+ s3).
Proof.
  induction s1 as [|c s1 IH]; [done|].
  change (String c ((s1 +:+ s2) +:+ s3) = String c (s1 +:+ (s2 +:+ s3))).
  by f_equal.
Qed.

Lemma evaluated_app (t1 t2 : list Event) :
  evaluated (t1 ++ t2) = evaluated t1 ++ evaluated t2.
Proof. unfold evaluated. apply omap_app. Qed.

(** ** [Evaluate] *)

Section EvaluateProperties.
Context {B : Backend}.

Lemma Evaluate_outcome (packagePath : string) (input : GoValue) (e : Evaluator) :
  outcome (Evaluate packagePath input e) = verdict e packagePath input.
Proof.
  unfold Evaluate, eval, verdict. go_simpl.
  destruct (rego_Eval ("data." +:+ packagePath) _ _ _ _); [|done].
  go_simpl.
  destruct (rego_Eval ("data." +:+ packagePath +:+ ".deny") _ _ _ _); [|done].
  go_simpl.
  destruct (rego_Eval ("data." +:+ packagePath +:+ ".warn") _ _ _ _); [|done].
  go_simpl.
  destruct (findings _ "ERROR" _); [|done]. go_simpl.
  destruct (findings _ "WARNING" _); done.
Qed.

Lemma Evaluate_after (packagePath : string) (input : GoValue) (e : Evaluator) :
  after (Evaluate packagePath input e) = e.
Proof.
  unfold Evaluate, eval. go_simpl.
  destruct (rego_Eval ("data." +:+ packagePath) _ _ _ _); [|done].
  go_simpl.
  destruct (rego_Eval ("data." +:+ packagePath +:+ ".deny") _ _ _ _); [|done].
  go_simpl.
  destruct (rego_Eval ("data." +:+ packagePath +:+ ".warn") _ _ _ _); [|done].
  go_simpl.
  destruct (findings _ "ERROR" _); [|done]. go_simpl.
  destruct (findings _ "WARNING" _); done.
Qed.

Lemma Evaluate_evaluated (packagePath : string) (input : GoValue) (e : Evaluator) :
  evaluated (trace (Evaluate packagePath input e)) = [(packagePath, input)].
Proof.
  unfold Evaluate, eval. go_simpl.
  destruct (rego_Eval ("data." +:+ packagePath) _ _ _ _); [|done].
  go_simpl.
  destruct (rego_Eval ("data." +:+ packagePath +:+ ".deny") _ _ _ _); [|done].
  go_simpl.
  destruct (rego_Eval ("data." +:+ packagePath +:+ ".warn") _ _ _ _); [|done].
  go_simpl.
  destruct (findings _ "ERROR" _); [|done]. go_simpl.
  destruct (findings _ "WARNING" _); done.
Qed.

(** On a list of strings the loop appends one finding per message and does
    not panic. *)
Lemma appendFindings_strings (acc : list Violation) (msgs : list string)
    (severity packagePath : string) :
  appendFindings acc (VString <$> msgs) severity packagePath =
  Done (acc ++ (finding severity packagePath <$> msgs)).
Proof.
  revert acc. induction msgs as [|msg msgs IH]; intros acc.
  - cbn. by rewrite app_nil_r.
  - cbn [fmap list_fmap appendFindings]. rewrite IH.
    by rewrite <- app_assoc.
Qed.

Lemma findings_carries (rs : ResultSet) (msgs : list string)
    (severity packagePath : string) :
  carries rs msgs ->
  findings rs severity packagePath = Done (finding severity packagePath <$> msgs).
Proof.
  unfold carries, findings.
  destruct rs as [|r rs]; [by intros ->|].
  destruct (Expressions r) as [|ev evs]; [by intros ->|].
  intros [[-> ->]| ->]; [done|].
  apply (appendFindings_strings [] msgs).
Qed.

(** What [Evaluate] returns when the engine answers its three queries and
    the [deny] and [warn] answers carry messages: one violation per [deny]
    message, one warning per [warn] message, and their counts. *)
Lemma Evaluate_carries (packagePath : string) (input : GoValue) (e : Evaluator)
    (rs denyRs warnRs : ResultSet) (denied warned : list string) :
  rego_Eval ("data." +:+ packagePath) (store e) (modules e) input (ctx e) = Ok rs ->
  rego_Eval ("data." +:+ packagePath +:+ ".deny") (store e) (modules e) input (ctx e)
    = Ok denyRs ->
  rego_Eval ("data." +:+ packagePath +:+ ".warn") (store e) (modules e) input (ctx e)
    = Ok warnRs ->
  carries denyRs denied ->
  carries warnRs warned ->
  outcome (Evaluate packagePath input e) =
  Done (Ok {| Violations := finding "ERROR" packagePath <$> denied;
              Warnings := finding "WARNING" packagePath <$> warned;
              PassCount := 0;
              FailCount := Z.of_nat (length denied);
              WarnCount := Z.of_nat (length warned) |}).
Proof.
  intros Hdata Hdeny Hwarn Hdenied Hwarned.
  rewrite Evaluate_outcome. unfold verdict. rewrite Hdata, Hdeny, Hwarn.
  rewrite (findings_carries _ _ _ _ Hdenied), (findings_carries _ _ _ _ Hwarned).
  by rewrite !length_fmap.
Qed.

(** The findings follow the order of the messages: reordered messages give
    the same findings, reordered. *)
Lemma findings_Permutation (rs rs' : ResultSet) (msgs msgs' : list string)
    (severity packagePath : string) :
  carries rs msgs -> carries rs' msgs' -> msgs ≡ₚ msgs' ->
  exists vs vs',
    findings rs severity packagePath = Done vs /\
    findings rs' severity packagePath = Done vs' /\
    vs ≡ₚ vs'.
Proof.
  intros Hrs Hrs' Hperm. eexists _, _.
  split; [by apply findings_carries|].
  split; [by apply findings_carries|].
  by apply fmap_Permutation.
Qed.

(** C9. Calling [Evaluate] never mutates the evaluator: whatever the package
    path and the input, and however the call ends (a result, an error or a
    panic), the evaluator after the call is the evaluator before it; its
    module map and its store in particular are unchanged. *)
Theorem Evaluate_no_mutation (packagePath : string) (input : GoValue) (e : Evaluator) :
  after (Evaluate packagePath input e) = e /\
  modules (after (Evaluate packagePath input e)) = modules e /\
  store (after (Evaluate packagePath input e)) = store e.
Proof.
  pose proof (Evaluate_after packagePath input e) as Hframe.
  by rewrite Hframe.
Qed.

(** C3 (amended). When the engine answers the [deny] and the [warn] query of
    a package path with the empty result set, as it does for a package that
    no module declares, and answers the query of the package itself without
    an error, [Evaluate] returns no error: it returns the result with zero
    violations, zero warnings and all counts zero. *)
Theorem Evaluate_unresolved (packagePath : string) (input : GoValue) (e : Evaluator)
    (rs : ResultSet) :
  rego_Eval ("data." +:+ packagePath) (store e) (modules e) input (ctx e) = Ok rs ->
  rego_Eval ("data." +:+ packagePath +:+ ".deny") (store e) (modules e) input (ctx e) = Ok [] ->
  rego_Eval ("data." +:+ packagePath +:+ ".warn") (store e) (modules e) input (ctx e) = Ok [] ->
  outcome (Evaluate packagePath input e) = Done (Ok noFindings).
Proof.
  intros Hdata Hdeny Hwarn.
  rewrite Evaluate_outcome. unfold verdict.
  by rewrite Hdata, Hdeny, Hwarn.
Qed.

End EvaluateProperties.

(** ** Two calls of [Evaluate] *)

Section EvaluateTwice.
Context {B : Backend}.

(** C8. For a fixed evaluator (loaded modules and store) and a fixed input,
    take two calls of [Evaluate] with the same package path, the second
    made on the evaluator the first call left, the engine answering the
    second call with the same [deny] messages and the same [warn] messages
    as the first, listed in whatever order.  Both calls return a result,
    and the two results have the same violations and the same warnings, as
    sets, and the same counts. *)
Theorem Evaluate_deterministic
    (engine2 : string -> Store -> gmap string AstModule -> GoValue -> Ctx -> result ResultSet)
    (packagePath : string) (input : GoValue) (e : Evaluator)
    (denied denied2 warned warned2 : list string) :
  answers rego_Eval e packagePath input denied warned ->
  answers engine2 e packagePath input denied2 warned2 ->
  denied ≡ₚ denied2 ->
  warned ≡ₚ warned2 ->
  let first := Evaluate packagePath input e in
  let second :=
    Evaluate (B := withEngine engine2) packagePath input (atEngine engine2 (after first)) in
  exists res1 res2,
    outcome first = Done (Ok res1) /\
    outcome second = Done (Ok res2) /\
    (forall v, v ∈ Violations res1 <-> v ∈ Violations res2) /\
    (forall w, w ∈ Warnings res1 <-> w ∈ Warnings res2) /\
    FailCount res1 = FailCount res2 /\
    WarnCount res1 = WarnCount res2.
Proof.
  intros (rs & denyRs & warnRs & Hdata & Hdeny & Hwarn & Hdenied & Hwarned)
         (rs2 & denyRs2 & warnRs2 & Hdata2 & Hdeny2 & Hwarn2 & Hdenied2 & Hwarned2)
         Hsame_denied Hsame_warned first second.
  subst first second. rewrite Evaluate_after.
  eexists _, _.
  split.
  { apply (Evaluate_carries packagePath input e rs denyRs warnRs denied warned);
      assumption. }
  split.
  { apply (Evaluate_carries (B := withEngine engine2) packagePath input
             (atEngine engine2 e) rs2 denyRs2 warnRs2 denied2 warned2);
      assumption. }
  cbn [Violations Warnings FailCount WarnCount].
  assert (finding "ERROR" packagePath <$> denied ≡ₚ
          finding "ERROR" packagePath <$> denied2) as Hviolations
    by (by apply fmap_Permutation).
  assert (finding "WARNING" packagePath <$> warned ≡ₚ
          finding "WARNING" packagePath <$> warned2) as Hwarnings
    by (by apply fmap_Permutation).
  split; [intros v; by rewrite Hviolations|].
  split; [intros w; by rewrite Hwarnings|].
  split; f_equal; by apply Permutation_length.
Qed.

End EvaluateTwice.

(** ** Loading *)

Section LoadProperties.
Context {B : Backend}.

Lemma failsToParse_loadError (v : Visit) (err : error) :
  failsToParse v err ->
  loadError v = Some ("failed to parse policy file " +:+ visitPath v +:+ ": " +:+ err).
Proof.
  intros (Hnil & Hfile & Hext & content & Hread & Hparse).
  unfold loadError. by rewrite Hnil, Hfile, Hext, Hread, Hparse.
Qed.

Lemma loadFile_outcome (v : Visit) (e : Evaluator) :
  outcome (loadFile v e) = Done (loadError v).
Proof.
  unfold loadFile, loadError.
  destruct (visitErr v); [done|].
  destruct (negb (visitIsDir v) && strings_HasSuffix (visitPath v) ".rego"); [|done].
  destruct (os_ReadFile (visitPath v)); [|done].
  destruct (ast_ParseModule (visitPath v) _); done.
Qed.

(** The walk returns the error of the first visit that has one. *)
Lemma filepath_Walk_outcome (visits : list Visit) (e : Evaluator) :
  outcome (filepath_Walk visits loadFile e) = Done (head (omap loadError visits)).
Proof.
  revert e. induction visits as [|v rest IH]; intros e; [done|].
  cbn [filepath_Walk]. go_simpl. rewrite loadFile_outcome.
  cbn [omap list_omap]. destruct (loadError v) as [err|]; [done|].
  go_simpl. apply IH.
Qed.

Lemma dirsError_cons (dir : string) (rest : list string) :
  dirsError (dir :: rest) =
  match head (omap loadError (Walk_visits dir)) with
  | Some err => Some ("failed to load policies from " +:+ dir +:+ ": " +:+ err)
  | None => dirsError rest
  end.
Proof. reflexivity. Qed.

Lemma loadDirs_outcome (dirs : list string) (e : Evaluator) :
  outcome (loadDirs dirs e) = Done (dirsError dirs).
Proof.
  revert e. induction dirs as [|dir rest IH]; intros e; [done|].
  rewrite dirsError_cons. cbn [loadDirs]. go_simpl. rewrite filepath_Walk_outcome.
  destruct (head (omap loadError (Walk_visits dir))); go_simpl; [done|].
  apply IH.
Qed.

Lemma NewEvaluator_error (ctx0 : Ctx) (dirs : list string) (err : error) :
  dirsError dirs = Some err -> NewEvaluator ctx0 dirs = Done (Err err).
Proof.
  intros Herr. unfold NewEvaluator, loadPolicies. go_simpl. cbn [policyDirs].
  by rewrite loadDirs_outcome, Herr.
Qed.

Lemma head_omap_is_Some {X Y} (f : X -> option Y) (l : list X) (x : X) :
  x ∈ l -> is_Some (f x) -> is_Some (head (omap f l)).
Proof.
  intros Hin Hx. induction Hin as [x l|x y l Hin IH]; cbn [omap list_omap].
  - destruct Hx as [b ->]. by eexists.
  - destruct (f y); [by eexists|]. by apply IH.
Qed.

Lemma head_omap_first {X Y} (f : X -> option Y) (l1 l2 : list X) (x : X) :
  (forall y, y ∈ l1 -> f y = None) -> head (omap f (l1 ++ x :: l2)) = head (omap f (x :: l2)).
Proof.
  induction l1 as [|y l1 IH]; intros Hnone; [done|].
  cbn [app omap list_omap]. rewrite (Hnone y) by left.
  apply IH. intros z Hz. apply Hnone. by right.
Qed.

Lemma head_omap_None {X Y} (f : X -> option Y) (l : list X) :
  (forall y, y ∈ l -> f y = None) -> head (omap f l) = None.
Proof.
  induction l as [|y l IH]; intros Hnone; [done|].
  cbn [omap list_omap]. rewrite (Hnone y) by left.
  apply IH. intros z Hz. apply Hnone. by right.
Qed.

Lemma dirsError_is_Some (dirs : list string) (dir : string) (v : Visit) :
  dir ∈ dirs -> v ∈ Walk_visits dir -> is_Some (loadError v) -> is_Some (dirsError dirs).
Proof.
  intros Hdir Hv Herr.
  induction Hdir as [dir dirs|dir dir' dirs Hdir IH]; rewrite dirsError_cons.
  - destruct (head_omap_is_Some loadError _ v Hv Herr) as [msg ->]. by eexists.
  - destruct (head (omap loadError (Walk_visits dir'))); [by eexists|]. by apply IH.
Qed.

Lemma dirsError_first (before later : list string) (dir : string) :
  (forall d u, d ∈ before -> u ∈ Walk_visits d -> loadError u = None) ->
  dirsError (before ++ dir :: later) = dirsError (dir :: later).
Proof.
  induction before as [|d before IH]; intros Hnone; [done|].
  cbn [app]. rewrite dirsError_cons.
  rewrite head_omap_None by (intros u Hu; apply (Hnone d); [left|done]).
  apply IH. intros d' u Hd' Hu. apply (Hnone d'); [by right|done].
Qed.

(** C6. If a policy file with the [.rego] extension under one of the root
    directories fails to parse, [NewEvaluator] returns an error and no
    evaluator, whatever else the directories hold; and when that file is the
    first the load fails at (every visit before it, in the directories
    before and in its own, loads), the error names it: it is
    [failed to load policies from <dir>: failed to parse policy file <path>:
    <parse error>]. *)
Theorem NewEvaluator_aborts_on_parse_error (ctx0 : Ctx) (dirs : list string)
    (dir : string) (v : Visit) (err : error) :
  dir ∈ dirs ->
  v ∈ Walk_visits dir ->
  failsToParse v err ->
  (exists msg, NewEvaluator ctx0 dirs = Done (Err msg)) /\
  (forall before later seen unseen,
      dirs = before ++ dir :: later ->
      Walk_visits dir = seen ++ v :: unseen ->
      (forall d u, d ∈ before -> u ∈ Walk_visits d -> loadError u = None) ->
      (forall u, u ∈ seen -> loadError u = None) ->
      NewEvaluator ctx0 dirs =
      Done (Err ("failed to load policies from " +:+ dir +:+
                 ": failed to parse policy file " +:+ visitPath v +:+ ": " +:+ err))).
Proof.
  intros Hdir Hv Hparse.
  pose proof (failsToParse_loadError v err Hparse) as Hload.
  split.
  - destruct (dirsError_is_Some dirs dir v Hdir Hv) as [msg Hmsg]; [by rewrite Hload|].
    exists msg. by apply NewEvaluator_error.
  - intros before later seen unseen -> Hwalk Hbefore Hseen.
    apply NewEvaluator_error.
    rewrite dirsError_first by done.
    rewrite dirsError_cons, Hwalk, head_omap_first by done.
    cbn [omap list_omap]. by rewrite Hload.
Qed.

End LoadProperties.

(** ** [EvaluateAll] *)

Section EvaluateAllProperties.
Context {B : Backend} {R : MapRange}.

Lemma collectPackagePaths_from (visited : list (string * AstModule))
    (acc : gmap string bool) (p : string) :
  is_Some (foldl (fun packagePaths pm =>
                    <[strings_Join (Package_Path pm.2) "." := true]> packagePaths)
                 acc visited !! p) <->
  is_Some (acc !! p) \/
  exists pm, pm ∈ visited /\ strings_Join (Package_Path pm.2) "." = p.
Proof.
  revert acc. induction visited as [|pm visited IH]; intros acc; cbn [foldl].
  - split; [by left|]. intros [?|(pm & Hin & _)]; [done|]. by apply elem_of_nil in Hin.
  - rewrite IH, lookup_insert_is_Some'. split.
    + intros [[<-|Hacc]|(pm' & Hin & Hp)].
      * right. exists pm. split; [left|done].
      * by left.
      * right. exists pm'. split; [by right|done].
    + intros [Hacc|(pm' & Hin & Hp)].
      * left. by right.
      * apply elem_of_cons in Hin as [->|Hin]; [left; by left|].
        right. by exists pm'.
Qed.

Lemma collectPackagePaths_lookup (visited : list (string * AstModule)) (p : string) :
  is_Some (collectPackagePaths visited !! p) <->
  exists pm, pm ∈ visited /\ strings_Join (Package_Path pm.2) "." = p.
Proof.
  unfold collectPackagePaths. rewrite collectPackagePaths_from, lookup_empty.
  split; [|by right]. intros [Hnone|?]; [|done]. by destruct Hnone.
Qed.

(** The package paths the second loop ranges over: no path twice, and
    exactly the packages that the loaded modules declare. *)
Lemma packagePaths_NoDup (e : Evaluator) :
  NoDup (range_map (collectPackagePaths (range_map (modules e)))).*1.
Proof.
  rewrite range_map_perm. apply NoDup_fst_map_to_list.
Qed.

Lemma packagePaths_declared (e : Evaluator) (p : string) :
  p ∈ (range_map (collectPackagePaths (range_map (modules e)))).*1 <->
  declares (modules e) p.
Proof.
  rewrite range_map_perm.
  assert (p ∈ (map_to_list (collectPackagePaths (range_map (modules e)))).*1 <->
          is_Some (collectPackagePaths (range_map (modules e)) !! p)) as ->.
  { rewrite list_elem_of_fmap. split.
    - intros ([k b] & -> & Hin). apply elem_of_map_to_list in Hin. by eexists.
    - intros [b Hb]. exists (p, b). split; [done|]. by apply elem_of_map_to_list. }
  rewrite collectPackagePaths_lookup. unfold declares. split.
  - intros ([path module] & Hin & Hp). rewrite range_map_perm in Hin.
    apply elem_of_map_to_list in Hin. by exists path, module.
  - intros (path & module & Hlook & Hp). exists (path, module). split; [|done].
    rewrite range_map_perm. by apply elem_of_map_to_list.
Qed.

(** The loop while every package evaluates. *)
Lemma evaluateEach_all (input : GoValue) (e : Evaluator) (packagePaths : list string)
    (results acc : list EvaluationResult) :
  allEvaluate e input packagePaths results ->
  outcome (evaluateEach packagePaths input acc e) = Done (Ok (acc ++ results)) /\
  evaluated (trace (evaluateEach packagePaths input acc e)) = calls packagePaths input.
Proof.
  intros Hall. revert acc.
  induction Hall as [|p res ps results Hp Hall IH]; intros acc.
  - cbn [evaluateEach]. go_simpl. by rewrite app_nil_r.
  - cbn [evaluateEach]. go_simpl. rewrite Hp, Evaluate_after. go_simpl.
    destruct (IH (acc ++ [res])) as [Hout Htrace].
    rewrite Hout, evaluated_app, Evaluate_evaluated, Htrace.
    split; [|done]. by rewrite <- app_assoc.
Qed.

(** The loop up to the first package whose evaluation returns an error. *)
Lemma evaluateEach_error (input : GoValue) (e : Evaluator)
    (passed : list string) (p : string) (rest : list string)
    (results acc : list EvaluationResult) (err : error) :
  allEvaluate e input passed results ->
  outcome (Evaluate p input e) = Done (Err err) ->
  outcome (evaluateEach (passed ++ p :: rest) input acc e) =
    Done (Err ("failed to evaluate package " +:+ p +:+ ": " +:+ err)) /\
  evaluated (trace (evaluateEach (passed ++ p :: rest) input acc e)) =
    calls (passed ++ [p]) input.
Proof.
  intros Hall Herr. revert acc.
  induction Hall as [|q res qs results Hq Hall IH]; intros acc.
  - cbn [app evaluateEach]. go_simpl. rewrite Herr. go_simpl.
    rewrite evaluated_app, Evaluate_evaluated. by rewrite app_nil_r.
  - cbn [app evaluateEach]. go_simpl. rewrite Hq, Evaluate_after. go_simpl.
    destruct (IH (acc ++ [res])) as [Hout Htrace].
    by rewrite Hout, evaluated_app, Evaluate_evaluated, Htrace.
Qed.

(** C7 (amended). [EvaluateAll] ranges over the distinct package paths that
    the loaded modules declare, each once, and calls [Evaluate] on them one
    after the other with the same input.  If every call returns a result,
    it returns these results, in that order, having called [Evaluate]
    exactly once per package.  At the first call that returns an error it
    stops: it returns that error, prefixed with the package it came from,
    and no results, and does not evaluate the packages that remain. *)
Theorem EvaluateAll_until_first_error (input : GoValue) (e : Evaluator) :
  let packagePaths := (range_map (collectPackagePaths (range_map (modules e)))).*1 in
  let r := EvaluateAll input e in
  NoDup packagePaths /\
  (forall p, p ∈ packagePaths <-> declares (modules e) p) /\
  (forall results,
      allEvaluate e input packagePaths results ->
      outcome r = Done (Ok results) /\
      evaluated (trace r) = calls packagePaths input) /\
  (forall passed p rest results err,
      packagePaths = passed ++ p :: rest ->
      allEvaluate e input passed results ->
      outcome (Evaluate p input e) = Done (Err err) ->
      outcome r = Done (Err ("failed to evaluate package " +:+ p +:+ ": " +:+ err)) /\
      evaluated (trace r) = calls (passed ++ [p]) input).
Proof.
  intros packagePaths r. subst r.
  split; [apply packagePaths_NoDup|].
  split; [apply packagePaths_declared|].
  unfold EvaluateAll. go_simpl. fold packagePaths. split.
  - intros results Hall.
    by destruct (evaluateEach_all input e packagePaths results [] Hall) as [-> ->].
  - intros passed p rest results err -> Hall Herr.
    by destruct (evaluateEach_error input e passed p rest results [] err Hall Herr)
      as [-> ->].
Qed.

End EvaluateAllProperties.

(** ** The admission gateway *)

Section GatewayProperties.
Context {B : Backend} {K : Kube}.

Lemma strings_Join_cons (x y : string) (rest : list string) (sep : string) :
  strings_Join (x :: y :: rest) sep = x +:+ sep +:+ strings_Join (y :: rest) sep.
Proof. reflexivity. Qed.

Lemma strings_Join_snoc (x : string) (l : list string) (y sep : string) :
  strings_Join (x :: l ++ [y]) sep = strings_Join (x :: l) sep +:+ sep +:+ y.
Proof.
  revert x. induction l as [|z l IH]; intros x; [done|].
  cbn [app]. rewrite !strings_Join_cons, IH.
  by rewrite !app_assoc_string.
Qed.

(** From the second violation on, the loop appends the delimiter and the
    next message. *)
Lemma joinReason_later (violations : list Violation) (i : nat) (m : string)
    (ms : list string) :
  joinReason (S i) (strings_Join (m :: ms) "; ") violations =
  strings_Join (m :: ms ++ (Message <$> violations)) "; ".
Proof.
  revert i ms. induction violations as [|v vs IH]; intros i ms.
  - cbn [joinReason fmap list_fmap]. by rewrite app_nil_r.
  - cbn [joinReason Nat.eqb]. rewrite <- strings_Join_snoc, IH.
    by rewrite <- app_assoc.
Qed.

(** The reason the loop builds is the messages in the evaluator's order,
    joined with [; ]. *)
Lemma joinReason_Join (violations : list Violation) :
  joinReason 0 "" violations = strings_Join (Message <$> violations) "; ".
Proof.
  destruct violations as [|v vs]; [done|].
  cbn [joinReason Nat.eqb]. apply (joinReason_later vs 0 (Message v) []).
Qed.

Lemma evaluateRequest_outcome (request : AdmissionRequest.t) (e : Evaluator) :
  outcome (evaluateRequest request e) =
  decisionOf (outcome (Evaluate (requestPackagePath request) (requestInput request) e)).
Proof.
  unfold evaluateRequest. go_simpl.
  destruct (outcome (Evaluate _ _ e)) as [[result|err]|why]; cbn [decisionOf]; [|done..].
  rewrite joinReason_Join. by destruct (Violations result).
Qed.

Lemma handle_decoded (r : Request) (e : Evaluator) (reviewRequest : AdmissionReview.t)
    (request : AdmissionRequest.t) :
  decodesTo r reviewRequest request ->
  outcome (handleAdmissionRequest r e) =
  match outcome (evaluateRequest request e) with
  | Done decision =>
      Done (JSON (reviewOf reviewRequest (respond (AdmissionRequest.UID request) decision)))
  | Panicked why => Panicked why
  end.
Proof.
  intros (Hct & Hdecode & Hrequest).
  unfold handleAdmissionRequest. rewrite Hct, Hdecode, Hrequest.
  cbn [String.eqb Ascii.eqb Bool.eqb negb andb]. go_simpl.
  destruct (outcome (evaluateRequest request e)) as [[[allowed reason] [err|]]|why];
    by go_simpl.
Qed.

(** C1. For every request that the gateway decodes (the content type is
    accepted, the body decodes, the review holds a request), every reply the
    handler writes is a review whose response carries the UID of the
    request; it writes one whatever [evaluateRequest] returns (allowed or
    not, with or without an error), with that decision; and the only runs
    without a reply are those on which [Evaluate] panics. *)
Theorem response_echoes_uid (r : Request) (e : Evaluator)
    (reviewRequest : AdmissionReview.t) (request : AdmissionRequest.t) :
  decodesTo r reviewRequest request ->
  (forall reply,
      outcome (handleAdmissionRequest r e) = Done reply ->
      exists response,
        reply = JSON (reviewOf reviewRequest response) /\
        AdmissionResponse.UID response = AdmissionRequest.UID request) /\
  (forall allowed reason err,
      outcome (evaluateRequest request e) = Done (allowed, reason, err) ->
      exists response,
        outcome (handleAdmissionRequest r e) = Done (JSON (reviewOf reviewRequest response)) /\
        AdmissionResponse.UID response = AdmissionRequest.UID request /\
        AdmissionResponse.Allowed response =
          match err with Some _ => false | None => allowed end) /\
  (forall why,
      outcome (handleAdmissionRequest r e) = Panicked why ->
      outcome (Evaluate (requestPackagePath request) (requestInput request) e) =
        Panicked why).
Proof.
  intros Hdecoded.
  rewrite (handle_decoded r e reviewRequest request Hdecoded).
  split; [|split].
  - intros reply Hreply.
    destruct (outcome (evaluateRequest request e)) as [[[allowed reason] err]|why];
      [|done].
    injection Hreply as <-.
    exists (respond (AdmissionRequest.UID request) (allowed, reason, err)).
    by destruct err.
  - intros allowed reason err ->.
    exists (respond (AdmissionRequest.UID request) (allowed, reason, err)).
    by destruct err.
  - intros why. rewrite evaluateRequest_outcome.
    destruct (outcome (Evaluate _ _ e)) as [[result|err]|why']; cbn [decisionOf].
    + by destruct (Violations result).
    + discriminate.
    + by intros [= ->].
Qed.

(** C2. For every decoded request, if [Evaluate] returns an error then the
    handler's response is not allowed and its status message describes the
    failure: it is the error, prefixed with [Error evaluating request:
    policy evaluation failed: ]. *)
Theorem evaluation_error_fails_closed (r : Request) (e : Evaluator)
    (reviewRequest : AdmissionReview.t) (request : AdmissionRequest.t) (err : error) :
  decodesTo r reviewRequest request ->
  outcome (Evaluate (requestPackagePath request) (requestInput request) e) = Done (Err err) ->
  outcome (handleAdmissionRequest r e) =
  Done (JSON (reviewOf reviewRequest
    {| AdmissionResponse.UID := AdmissionRequest.UID request;
       AdmissionResponse.Allowed := false;
       AdmissionResponse.Result :=
         Some {| Status.Message :=
                   "Error evaluating request: policy evaluation failed: " +:+ err |} |})).
Proof.
  intros Hdecoded Herr.
  rewrite (handle_decoded r e reviewRequest request Hdecoded).
  by rewrite evaluateRequest_outcome, Herr.
Qed.

(** C4 (amended). For every decoded request whose evaluation returns a
    non-empty list of violations, the handler responds not allowed, with
    the message made of all violation messages joined with [; ] in the
    order in which [Evaluate] returned them. *)
Theorem violations_deny_with_joined_reason (r : Request) (e : Evaluator)
    (reviewRequest : AdmissionReview.t) (request : AdmissionRequest.t)
    (result : EvaluationResult) :
  decodesTo r reviewRequest request ->
  outcome (Evaluate (requestPackagePath request) (requestInput request) e) = Done (Ok result) ->
  Violations result <> [] ->
  outcome (handleAdmissionRequest r e) =
  Done (JSON (reviewOf reviewRequest
    {| AdmissionResponse.UID := AdmissionRequest.UID request;
       AdmissionResponse.Allowed := false;
       AdmissionResponse.Result :=
         Some {| Status.Message := strings_Join (Message <$> Violations result) "; " |} |})).
Proof.
  intros Hdecoded Hresult Hsome.
  rewrite (handle_decoded r e reviewRequest request Hdecoded).
  rewrite evaluateRequest_outcome, Hresult. cbn [decisionOf].
  by destruct (Violations result).
Qed.

(** C5. For every decoded request whose evaluation returns no violation,
    the handler responds allowed and sets no status message, whatever the
    warnings of the result are. *)
Theorem no_violations_allowed (r : Request) (e : Evaluator)
    (reviewRequest : AdmissionReview.t) (request : AdmissionRequest.t)
    (result : EvaluationResult) :
  decodesTo r reviewRequest request ->
  outcome (Evaluate (requestPackagePath request) (requestInput request) e) = Done (Ok result) ->
  Violations result = [] ->
  outcome (handleAdmissionRequest r e) =
  Done (JSON (reviewOf reviewRequest
    {| AdmissionResponse.UID := AdmissionRequest.UID request;
       AdmissionResponse.Allowed := true;
       AdmissionResponse.Result := None |})).
Proof.
  intros Hdecoded Hresult Hnone.
  rewrite (handle_decoded r e reviewRequest request Hdecoded).
  by rewrite evaluateRequest_outcome, Hresult; cbn [decisionOf]; rewrite Hnone.
Qed.

(** C10. For every request whose Content-Type header is not exactly
    [application/json], the handler answers 415 Unsupported Media Type; the
    run leaves the evaluator as it was and consists of one log line: the
    body is not decoded and no policy is evaluated. *)
Theorem other_content_type_rejected (r : Request) (e : Evaluator) :
  Header_Get (Header r) "Content-Type" <> "application/json" ->
  handleAdmissionRequest r e =
    Run (Done (Error "Invalid Content-Type" 415)) e
        [EvLog ("contentType=" +:+ Header_Get (Header r) "Content-Type" +:+
                ", expected application/json")] /\
  forall ev, ev ∈ trace (handleAdmissionRequest r e) ->
    (forall body, ev <> EvDecode body) /\
    (forall p input, ev <> EvEvaluate p input) /\
    (forall q input, ev <> EvQuery q input).
Proof.
  intros Hct. apply String.eqb_neq in Hct.
  unfold handleAdmissionRequest. rewrite Hct. cbn [negb]. go_simpl.
  split; [done|].
  intros ev Hev. apply list_elem_of_singleton in Hev as ->. done.
Qed.

End GatewayProperties.

(** ** More on loading *)

Section LoadMoreProperties.
Context {B : Backend}.

Lemma head_omap_None_inv {X Y} (f : X -> option Y) (l : list X) :
  head (omap f l) = None -> forall y, y ∈ l -> f y = None.
Proof.
  induction l as [|x l IH]; intros Hnone y Hy; [by apply elem_of_nil in Hy|].
  cbn [omap list_omap] in Hnone. destruct (f x) as [b|] eqn:Hx; [done|].
  apply elem_of_cons in Hy as [->|Hy]; [done|]. by apply IH.
Qed.

Lemma head_omap_Some_inv {X Y} (f : X -> option Y) (l : list X) (b : Y) :
  head (omap f l) = Some b ->
  exists l1 x l2, l = l1 ++ x :: l2 /\ (forall y, y ∈ l1 -> f y = None) /\ f x = Some b.
Proof.
  induction l as [|x l IH]; intros Hsome; [done|].
  cbn [omap list_omap] in Hsome. destruct (f x) as [b'|] eqn:Hx.
  - injection Hsome as ->. exists [], x, l. split; [done|]. split; [|done].
    intros y Hy. by apply elem_of_nil in Hy.
  - destruct (IH Hsome) as (l1 & x' & l2 & -> & Hnone & Hx').
    exists (x :: l1), x', l2. split; [done|]. split; [|done].
    intros y Hy. apply elem_of_cons in Hy as [->|Hy]; [done|]. by apply Hnone.
Qed.

Lemma dirsError_None (dirs : list string) :
  dirsError dirs = None <-> loads dirs.
Proof.
  unfold loads. induction dirs as [|dir rest IH].
  - split; [|done]. intros _ d v Hd. by apply elem_of_nil in Hd.
  - rewrite dirsError_cons. split.
    + destruct (head (omap loadError (Walk_visits dir))) eqn:Hhead; [done|].
      intros Hrest d v Hd Hv. apply elem_of_cons in Hd as [->|Hd].
      * by apply (head_omap_None_inv loadError (Walk_visits dir)).
      * by apply (proj1 IH Hrest d).
    + intros Hloads.
      rewrite head_omap_None by (intros v Hv; apply (Hloads dir); [left|done]).
      apply IH. intros d v Hd Hv. apply (Hloads d); [by right|done].
Qed.

Lemma extends_refl (e : Evaluator) : extends [] e e.
Proof.
  split; [done|]. split; [done|]. split; [done|].
  intros path. destruct (decide (path ∈ [])) as [Hin|]; [|done].
  by apply elem_of_nil in Hin.
Qed.

Lemma extends_app (paths1 paths2 : list string) (e e' e'' : Evaluator) :
  extends paths1 e e' -> extends paths2 e' e'' -> extends (paths1 ++ paths2) e e''.
Proof.
  intros (Hd1 & Hc1 & Hs1 & Hm1) (Hd2 & Hc2 & Hs2 & Hm2).
  split; [congruence|]. split; [congruence|]. split; [congruence|].
  intros path. rewrite Hm2, Hm1.
  destruct (decide (path ∈ paths2)), (decide (path ∈ paths1)),
    (decide (path ∈ paths1 ++ paths2)) as [Hin|Hout]; try done.
  - exfalso. apply Hout, elem_of_app. by right.
  - exfalso. apply Hout, elem_of_app. by right.
  - exfalso. apply Hout, elem_of_app. by left.
  - exfalso. apply elem_of_app in Hin as [?|?]; done.
Qed.

Lemma loadFile_extends (v : Visit) (e : Evaluator) :
  loadError v = None -> extends (policyPaths [v]) e (after (loadFile v e)).
Proof.
  unfold loadError, loadFile, policyPaths, isPolicyFile. cbn [omap list_omap].
  destruct (visitErr v); [done|].
  destruct (negb (visitIsDir v) && strings_HasSuffix (visitPath v) ".rego").
  - destruct (os_ReadFile (visitPath v)) as [content|] eqn:Hread; [|done].
    destruct (ast_ParseModule (visitPath v) content) as [module|] eqn:Hparse; [|done].
    intros _. go_simpl. split; [done|]. split; [done|]. split; [done|].
    intros path. cbn [modules set_module].
    destruct (decide (path ∈ [visitPath v])) as [Hin|Hout].
    + apply list_elem_of_singleton in Hin as ->.
      rewrite lookup_insert_eq. unfold parsed. by rewrite Hread, Hparse.
    + rewrite lookup_insert_ne; [done|].
      intros <-. apply Hout. by apply list_elem_of_singleton.
  - intros _. go_simpl. apply extends_refl.
Qed.

Lemma policyPaths_cons (v : Visit) (rest : list Visit) :
  policyPaths (v :: rest) = policyPaths [v] ++ policyPaths rest.
Proof.
  unfold policyPaths. cbn [omap list_omap]. by destruct (isPolicyFile v).
Qed.

Lemma filepath_Walk_extends (visits : list Visit) (e : Evaluator) :
  (forall v, v ∈ visits -> loadError v = None) ->
  extends (policyPaths visits) e (after (filepath_Walk visits loadFile e)).
Proof.
  revert e. induction visits as [|v rest IH]; intros e Hloads.
  - apply extends_refl.
  - rewrite policyPaths_cons. cbn [filepath_Walk]. go_simpl.
    rewrite loadFile_outcome, (Hloads v) by left. go_simpl.
    eapply extends_app; [apply loadFile_extends, Hloads; left|].
    apply IH. intros u Hu. apply Hloads. by right.
Qed.

Lemma loadDirs_extends (dirs : list string) (e : Evaluator) :
  loads dirs -> extends (allPolicyPaths dirs) e (after (loadDirs dirs e)).
Proof.
  revert e. induction dirs as [|dir rest IH]; intros e Hloads.
  - apply extends_refl.
  - unfold allPolicyPaths. cbn [fmap list_fmap mjoin list_join]. cbn [loadDirs]. go_simpl.
    rewrite filepath_Walk_outcome.
    rewrite head_omap_None by (intros v Hv; apply (Hloads dir); [left|done]).
    go_simpl. eapply extends_app.
    + apply filepath_Walk_extends. intros v Hv. apply (Hloads dir); [left|done].
    + apply IH. intros d v Hd Hv. apply (Hloads d); [by right|done].
Qed.

Lemma allPolicyPaths_visited (dirs : list string) (path : string) :
  path ∈ allPolicyPaths dirs <-> visitedPolicy dirs path.
Proof.
  unfold allPolicyPaths, visitedPolicy, policyPaths.
  rewrite list_elem_of_join. split.
  - intros (paths & Hpath & Hpaths).
    apply list_elem_of_fmap in Hpaths as (d & -> & Hd).
    apply list_elem_of_omap in Hpath as (v & Hv & Hsome).
    exists d, v. destruct (isPolicyFile v); [|done].
    by injection Hsome as <-.
  - intros (d & v & Hd & Hv & Hpolicy & <-).
    eexists. split; [|apply list_elem_of_fmap; by exists d].
    apply list_elem_of_omap. exists v. split; [done|]. by rewrite Hpolicy.
Qed.

Lemma NewEvaluator_loads (ctx0 : Ctx) (dirs : list string) :
  loads dirs ->
  exists e,
    NewEvaluator ctx0 dirs = Done (Ok e) /\
    extends (allPolicyPaths dirs)
      {| policyDirs := dirs; modules := ∅; ctx := ctx0; store := inmem_New |} e.
Proof.
  intros Hloads. eexists. split.
  - unfold NewEvaluator, loadPolicies. go_simpl. cbn [policyDirs].
    rewrite loadDirs_outcome, (proj2 (dirsError_None dirs) Hloads). reflexivity.
  - by apply loadDirs_extends.
Qed.

Lemma NewEvaluator_Ok_loads (ctx0 : Ctx) (dirs : list string) (e : Evaluator) :
  NewEvaluator ctx0 dirs = Done (Ok e) -> loads dirs.
Proof.
  intros Hok. apply dirsError_None.
  destruct (dirsError dirs) as [err|] eqn:Herr; [|done].
  by rewrite (NewEvaluator_error ctx0 dirs err Herr) in Hok.
Qed.

Lemma NewEvaluator_succeeds_iff_loads_aux (ctx0 : Ctx) (dirs : list string) :
  (loads dirs /\ exists e, NewEvaluator ctx0 dirs = Done (Ok e)) \/
  (~ loads dirs /\ exists err, NewEvaluator ctx0 dirs = Done (Err err)).
Proof.
  destruct (dirsError dirs) as [err|] eqn:Herr.
  - right. split.
    + intros Hloads. apply dirsError_None in Hloads. congruence.
    + exists err. by apply NewEvaluator_error.
  - left. apply dirsError_None in Herr. split; [done|].
    destruct (NewEvaluator_loads ctx0 dirs Herr) as (e & He & _). by exists e.
Qed.

(** X1. [NewEvaluator] returns an evaluator exactly when every visit of the
    walks loads (no walk error, and every regular [.rego] file reads and
    parses); otherwise it returns an error; it never panics. *)
Theorem NewEvaluator_succeeds_iff_loads (ctx0 : Ctx) (dirs : list string) :
  (loads dirs <-> exists e, NewEvaluator ctx0 dirs = Done (Ok e)) /\
  (~ loads dirs <-> exists msg, NewEvaluator ctx0 dirs = Done (Err msg)) /\
  (forall why, NewEvaluator ctx0 dirs <> Panicked why).
Proof.
  split; [|split].
  - split.
    + intros Hloads. destruct (NewEvaluator_loads ctx0 dirs Hloads) as (e & He & _).
      by exists e.
    + intros [e He]. by apply (NewEvaluator_Ok_loads ctx0 dirs e).
  - split.
    + intros Hfails. destruct (dirsError dirs) as [err|] eqn:Herr.
      * exists err. by apply NewEvaluator_error.
      * destruct Hfails. by apply dirsError_None.
    + intros [msg Hmsg] Hloads.
      destruct (NewEvaluator_loads ctx0 dirs Hloads) as (e & He & _). congruence.
  - intros why Hwhy. destruct (dirsError dirs) as [err|] eqn:Herr.
    + by rewrite (NewEvaluator_error ctx0 dirs err Herr) in Hwhy.
    + apply dirsError_None in Herr.
      destruct (NewEvaluator_loads ctx0 dirs Herr) as (e & He & _). congruence.
Qed.

(** X2. The evaluator that [NewEvaluator] returns has the given directories
    and context and a fresh store, and its module map holds exactly the
    policy files visited: a path maps to a module if and only if the walks
    visit a regular file with that path and the [.rego] extension and the
    module is what that file parses to.  So no key of the map lacks the
    extension. *)
Theorem NewEvaluator_modules (ctx0 : Ctx) (dirs : list string) (e : Evaluator) :
  NewEvaluator ctx0 dirs = Done (Ok e) ->
  policyDirs e = dirs /\ ctx e = ctx0 /\ store e = inmem_New /\
  (forall path module,
      modules e !! path = Some module <->
      visitedPolicy dirs path /\ parsed path = Some module) /\
  (forall path, is_Some (modules e !! path) -> strings_HasSuffix path ".rego" = true).
Proof.
  intros Hok. pose proof (NewEvaluator_Ok_loads ctx0 dirs e Hok) as Hloads.
  destruct (NewEvaluator_loads ctx0 dirs Hloads) as (e' & He' & Hd & Hc & Hs & Hm).
  assert (e' = e) as -> by congruence.
  assert (forall path module,
             modules e !! path = Some module <->
             visitedPolicy dirs path /\ parsed path = Some module) as Hlookup.
  { intros path module. rewrite Hm. cbn [modules]. rewrite lookup_empty.
    destruct (decide (path ∈ allPolicyPaths dirs)) as [Hin|Hout].
    - apply allPolicyPaths_visited in Hin. split; [by intros ?|by intros [_ ?]].
    - split; [done|]. intros [Hin _]. by apply allPolicyPaths_visited in Hin. }
  split; [done|]. split; [done|]. split; [done|]. split; [done|].
  intros path [module Hmodule].
  apply Hlookup in Hmodule as [(d & v & _ & _ & Hpolicy & <-) _].
  unfold isPolicyFile in Hpolicy. destruct (visitErr v); [done|].
  by apply andb_prop in Hpolicy as [_ ?].
Qed.

(** X3. The module map does not depend on the order of the policy
    directories nor on a directory being listed more than once: if two
    lists name the same directories and the load of one succeeds, the load
    of the other succeeds with the same module map. *)
Theorem NewEvaluator_order_irrelevant (ctx0 : Ctx) (dirs dirs' : list string)
    (e : Evaluator) :
  (forall d, d ∈ dirs <-> d ∈ dirs') ->
  NewEvaluator ctx0 dirs = Done (Ok e) ->
  exists e', NewEvaluator ctx0 dirs' = Done (Ok e') /\ modules e' = modules e.
Proof.
  intros Hsame Hok.
  pose proof (NewEvaluator_Ok_loads ctx0 dirs e Hok) as Hloads.
  assert (loads dirs') as Hloads'.
  { intros d v Hd Hv. apply (Hloads d); [by apply Hsame|done]. }
  destruct (NewEvaluator_loads ctx0 dirs Hloads) as (e1 & He1 & _ & _ & _ & Hm).
  destruct (NewEvaluator_loads ctx0 dirs' Hloads') as (e' & He' & _ & _ & _ & Hm').
  assert (e1 = e) as -> by congruence.
  exists e'. split; [done|]. apply map_eq. intros path. rewrite Hm, Hm'.
  cbn [modules].
  destruct (decide (path ∈ allPolicyPaths dirs')) as [Hin'|Hout'],
    (decide (path ∈ allPolicyPaths dirs)) as [Hin|Hout]; try done.
  - destruct Hout. apply allPolicyPaths_visited.
    apply allPolicyPaths_visited in Hin' as (d & v & Hd & Hrest).
    exists d, v. split; [by apply Hsame|done].
  - destruct Hout'. apply allPolicyPaths_visited.
    apply allPolicyPaths_visited in Hin as (d & v & Hd & Hrest).
    exists d, v. split; [by apply Hsame|done].
Qed.

(** X4. Every error of [NewEvaluator] is that of the first visit that does
    not load, in the first directory that has one, prefixed with
    [failed to load policies from <dir>: ]; it is the error that the walk
    passed in (as for a root that does not exist), or the read error after
    [failed to read policy file <path>: ], or the parse error after
    [failed to parse policy file <path>: ]. *)
Theorem NewEvaluator_error_is_first_failure (ctx0 : Ctx) (dirs : list string)
    (msg : error) :
  NewEvaluator ctx0 dirs = Done (Err msg) ->
  exists before dir later seen v unseen err,
    dirs = before ++ dir :: later /\
    Walk_visits dir = seen ++ v :: unseen /\
    loads before /\
    (forall u, u ∈ seen -> loadError u = None) /\
    msg = "failed to load policies from " +:+ dir +:+ ": " +:+ err /\
    (visitErr v = Some err \/
     (isPolicyFile v = true /\ exists e,
        os_ReadFile (visitPath v) = Err e /\
        err = "failed to read policy file " +:+ visitPath v +:+ ": " +:+ e) \/
     (exists e, failsToParse v e /\
        err = "failed to parse policy file " +:+ visitPath v +:+ ": " +:+ e)).
Proof.
  intros Hmsg.
  assert (dirsError dirs = Some msg) as Herr.
  { destruct (dirsError dirs) as [err|] eqn:Herr.
    - rewrite (NewEvaluator_error ctx0 dirs err Herr) in Hmsg. congruence.
    - apply dirsError_None in Herr.
      destruct (NewEvaluator_loads ctx0 dirs Herr) as (e & He & _). congruence. }
  clear Hmsg. induction dirs as [|d rest IH]; [done|].
  rewrite dirsError_cons in Herr.
  destruct (head (omap loadError (Walk_visits d))) as [err|] eqn:Hhead.
  - injection Herr as <-.
    apply head_omap_Some_inv in Hhead as (seen & v & unseen & Hwalk & Hseen & Hv).
    exists [], d, rest, seen, v, unseen, err.
    split; [done|]. split; [done|].
    split; [intros ? ? Hin; by apply elem_of_nil in Hin|].
    split; [done|]. split; [done|].
    unfold loadError in Hv. unfold isPolicyFile, failsToParse.
    destruct (visitErr v) as [werr|]; [left; congruence|].
    destruct (visitIsDir v); [done|]. cbn [negb andb] in *.
    destruct (strings_HasSuffix (visitPath v) ".rego"); [|done].
    destruct (os_ReadFile (visitPath v)) as [content|rerr] eqn:Hread.
    + destruct (ast_ParseModule (visitPath v) content) as [|perr] eqn:Hparse; [done|].
      right. right. exists perr. injection Hv as <-.
      split; [|done]. repeat split. by exists content.
    + right. left. split; [done|]. exists rerr. by injection Hv as <-.
  - destruct (IH Herr) as (before & dir & later & seen & v & unseen & err &
                           -> & Hwalk & Hbefore & Hseen & Hmsg & Hkind).
    exists (d :: before), dir, later, seen, v, unseen, err.
    split; [done|]. split; [done|]. split; [|done].
    intros d' u Hd' Hu. apply elem_of_cons in Hd' as [->|Hd'].
    + by apply (head_omap_None_inv loadError (Walk_visits d)).
    + by apply (Hbefore d').
Qed.

End LoadMoreProperties.

(** ** More on [Evaluate] and [EvaluateAll] *)

Section EvaluateMoreProperties.
Context {B : Backend} {R : MapRange}.

Lemma appendFindings_Done_inv (acc : list Violation) (vs : list GoValue)
    (severity packagePath : string) (found : list Violation) :
  appendFindings acc vs severity packagePath = Done found ->
  exists msgs, vs = VString <$> msgs.
Proof.
  revert acc. induction vs as [|v vs IH]; intros acc Hdone; [by exists []|].
  destruct v; try done. cbn [appendFindings] in Hdone.
  destruct (IH _ Hdone) as [msgs ->]. by exists (s :: msgs).
Qed.

(** When the extraction returns, the answer carries messages and the
    findings are these messages, one each. *)
Lemma findings_Done_inv (rs : ResultSet) (severity packagePath : string)
    (found : list Violation) :
  findings rs severity packagePath = Done found ->
  exists msgs, carries rs msgs /\ found = finding severity packagePath <$> msgs.
Proof.
  unfold findings, carries. destruct rs as [|r rs].
  { intros [= <-]. by exists []. }
  destruct (Expressions r) as [|ev evs].
  { intros [= <-]. by exists []. }
  destruct (Value ev) as [| | | | |vs|] eqn:Hvalue; try done.
  - intros [= <-]. exists []. split; [by left|done].
  - intros Hdone.
    destruct (appendFindings_Done_inv _ _ _ _ _ Hdone) as [msgs ->].
    exists msgs. split; [by right|].
    rewrite appendFindings_strings in Hdone. by injection Hdone as <-.
Qed.

Lemma findings_Panicked_iff (rs : ResultSet) (severity packagePath : string) :
  (exists why, findings rs severity packagePath = Panicked why) <-> illTyped rs.
Proof.
  split.
  - intros [why Hpanic] msgs Hcarries.
    by rewrite (findings_carries rs msgs severity packagePath Hcarries) in Hpanic.
  - intros Hill. destruct (findings rs severity packagePath) as [found|why] eqn:Hf.
    + destruct (findings_Done_inv _ _ _ _ Hf) as (msgs & Hcarries & _).
      by destruct (Hill msgs).
    + by exists why.
Qed.

Lemma Evaluate_verdict (packagePath : string) (input : GoValue) (e : Evaluator) :
  outcome (Evaluate packagePath input e) =
  match dataAnswer e packagePath input with
  | Err err => Done (Err ("evaluation failed: " +:+ err))
  | Ok _ =>
      match ruleAnswer e packagePath ".deny" input with
      | Err err => Done (Err ("deny rule evaluation failed: " +:+ err))
      | Ok denyRs =>
          match ruleAnswer e packagePath ".warn" input with
          | Err err => Done (Err ("warning rule evaluation failed: " +:+ err))
          | Ok warnRs =>
              match findings denyRs "ERROR" packagePath with
              | Panicked why => Panicked why
              | Done violations =>
                  match findings warnRs "WARNING" packagePath with
                  | Panicked why => Panicked why
                  | Done warnings =>
                      Done (Ok {| Violations := violations;
                                  Warnings := warnings;
                                  PassCount := 0;
                                  FailCount := Z.of_nat (length violations);
                                  WarnCount := Z.of_nat (length warnings) |})
                  end
              end
          end
      end
  end.
Proof. apply Evaluate_outcome. Qed.

(** X5. Every result that [Evaluate] returns has [PassCount] zero,
    [FailCount] and [WarnCount] equal to the numbers of its violations and
    warnings, every violation tagged [ERROR] and every warning tagged
    [WARNING], and every finding attributed to the package path of the
    call. *)
Theorem Evaluate_result_invariants (packagePath : string) (input : GoValue)
    (e : Evaluator) (res : EvaluationResult) :
  outcome (Evaluate packagePath input e) = Done (Ok res) ->
  PassCount res = 0%Z /\
  FailCount res = Z.of_nat (length (Violations res)) /\
  WarnCount res = Z.of_nat (length (Warnings res)) /\
  Forall (fun v => Severity v = "ERROR" /\ Policy v = packagePath) (Violations res) /\
  Forall (fun w => Severity w = "WARNING" /\ Policy w = packagePath) (Warnings res).
Proof.
  rewrite Evaluate_verdict.
  destruct (dataAnswer e packagePath input); [|done].
  destruct (ruleAnswer e packagePath ".deny" input) as [denyRs|]; [|done].
  destruct (ruleAnswer e packagePath ".warn" input) as [warnRs|]; [|done].
  destruct (findings denyRs "ERROR" packagePath) as [violations|] eqn:Hdeny; [|done].
  destruct (findings warnRs "WARNING" packagePath) as [warnings|] eqn:Hwarn; [|done].
  intros [= <-]. cbn.
  destruct (findings_Done_inv _ _ _ _ Hdeny) as (denied & _ & ->).
  destruct (findings_Done_inv _ _ _ _ Hwarn) as (warned & _ & ->).
  repeat split; apply Forall_fmap, Forall_true; done.
Qed.

(** X6. When the engine answers the three queries and the [deny] and [warn]
    answers carry lists of messages, [Evaluate] returns one violation per
    [deny] message and one warning per [warn] message, in the order of the
    lists and with repeated messages kept; the answer to the query of the
    package itself plays no part. *)
Theorem Evaluate_findings (packagePath : string) (input : GoValue) (e : Evaluator)
    (rs denyRs warnRs : ResultSet) (denied warned : list string) :
  dataAnswer e packagePath input = Ok rs ->
  ruleAnswer e packagePath ".deny" input = Ok denyRs ->
  ruleAnswer e packagePath ".warn" input = Ok warnRs ->
  carries denyRs denied ->
  carries warnRs warned ->
  exists res,
    outcome (Evaluate packagePath input e) = Done (Ok res) /\
    Message <$> Violations res = denied /\
    Message <$> Warnings res = warned.
Proof.
  intros Hdata Hdeny Hwarn Hdenied Hwarned. eexists. split.
  - by apply (Evaluate_carries packagePath input e rs denyRs warnRs denied warned).
  - cbn [Violations Warnings]. rewrite <- !list_fmap_compose.
    split; apply list_fmap_id.
Qed.

(** X7. [Evaluate] returns an error exactly when one of its three queries
    fails, and the error is that of the first query that fails, after
    [evaluation failed: ], [deny rule evaluation failed: ] or
    [warning rule evaluation failed: ]; a failing [warn] query thus makes
    an error of a call whose [deny] query found violations. *)
Theorem Evaluate_error_iff (packagePath : string) (input : GoValue) (e : Evaluator)
    (msg : error) :
  outcome (Evaluate packagePath input e) = Done (Err msg) <->
  (exists err,
      dataAnswer e packagePath input = Err err /\
      msg = "evaluation failed: " +:+ err) \/
  (exists rs err,
      dataAnswer e packagePath input = Ok rs /\
      ruleAnswer e packagePath ".deny" input = Err err /\
      msg = "deny rule evaluation failed: " +:+ err) \/
  (exists rs denyRs err,
      dataAnswer e packagePath input = Ok rs /\
      ruleAnswer e packagePath ".deny" input = Ok denyRs /\
      ruleAnswer e packagePath ".warn" input = Err err /\
      msg = "warning rule evaluation failed: " +:+ err).
Proof.
  rewrite Evaluate_verdict.
  destruct (dataAnswer e packagePath input) as [rs|derr].
  2:{ split.
      - intros [= <-]. left. by exists derr.
      - intros [(err & [= <-] & ->)|[(? & ? & ? & _)|(? & ? & ? & ? & _)]]; done. }
  destruct (ruleAnswer e packagePath ".deny" input) as [denyRs|derr].
  2:{ split.
      - intros [= <-]. right. left. by exists rs, derr.
      - intros [(? & ? & _)|[(? & err & _ & [= <-] & ->)|(? & ? & ? & _ & ? & _)]]; done. }
  destruct (ruleAnswer e packagePath ".warn" input) as [warnRs|werr].
  2:{ split.
      - intros [= <-]. right. right. by exists rs, denyRs, werr.
      - intros [(? & ? & _)|[(? & ? & _ & ? & _)|(? & ? & err & _ & _ & [= <-] & ->)]];
          done. }
  split.
  - destruct (findings denyRs "ERROR" packagePath); [|done].
    by destruct (findings warnRs "WARNING" packagePath).
  - intros [(? & ? & _)|[(? & ? & _ & ? & _)|(? & ? & ? & _ & _ & ? & _)]]; done.
Qed.

(** X8. [Evaluate] panics exactly when the engine answers all three queries
    and the first value of the [deny] or of the [warn] answer is neither
    nil nor a list of strings: such a rule value is no error but a crash of
    the calling goroutine. *)
Theorem Evaluate_panics_iff (packagePath : string) (input : GoValue) (e : Evaluator) :
  (exists why, outcome (Evaluate packagePath input e) = Panicked why) <->
  exists rs denyRs warnRs,
    dataAnswer e packagePath input = Ok rs /\
    ruleAnswer e packagePath ".deny" input = Ok denyRs /\
    ruleAnswer e packagePath ".warn" input = Ok warnRs /\
    (illTyped denyRs \/ illTyped warnRs).
Proof.
  rewrite Evaluate_verdict.
  destruct (dataAnswer e packagePath input) as [rs|].
  2:{ split; [by intros [? ?]|by intros (? & ? & ? & ? & _)]. }
  destruct (ruleAnswer e packagePath ".deny" input) as [denyRs|].
  2:{ split; [by intros [? ?]|by intros (? & ? & ? & _ & ? & _)]. }
  destruct (ruleAnswer e packagePath ".warn" input) as [warnRs|].
  2:{ split; [by intros [? ?]|by intros (? & ? & ? & _ & _ & ? & _)]. }
  pose proof (findings_Panicked_iff denyRs "ERROR" packagePath) as Hdeny.
  pose proof (findings_Panicked_iff warnRs "WARNING" packagePath) as Hwarn.
  split.
  - intros [why Hpanic]. exists rs, denyRs, warnRs. repeat split.
    destruct (findings denyRs "ERROR" packagePath) as [violations|why1].
    + right. apply Hwarn.
      destruct (findings warnRs "WARNING" packagePath) as [|why2]; [done|by exists why2].
    + left. apply Hdeny. by exists why1.
  - intros (? & ? & ? & [= <-] & [= <-] & [= <-] & [Hill|Hill]).
    + apply Hdeny in Hill as [why ->]. by exists why.
    + apply Hwarn in Hill as [why ->].
      destruct (findings denyRs "ERROR" packagePath) as [|why1]; by eexists.
Qed.

(** X9. [Evaluate] asks the engine for [data.<package>], then for its
    [deny] rule, then for its [warn] rule, each with the input of the call;
    it asks for nothing else, and after a query that fails it asks no
    more. *)
Theorem Evaluate_queries (packagePath : string) (input : GoValue) (e : Evaluator) :
  trace (Evaluate packagePath input e) =
  EvEvaluate packagePath input ::
  EvQuery ("data." +:+ packagePath) input ::
  match dataAnswer e packagePath input with
  | Err _ => []
  | Ok _ =>
      EvQuery ("data." +:+ packagePath +:+ ".deny") input ::
      match ruleAnswer e packagePath ".deny" input with
      | Err _ => []
      | Ok _ => [EvQuery ("data." +:+ packagePath +:+ ".warn") input]
      end
  end.
Proof.
  unfold Evaluate, eval, dataAnswer, ruleAnswer. go_simpl.
  destruct (rego_Eval ("data." +:+ packagePath) _ _ _ _); [|done].
  go_simpl.
  destruct (rego_Eval ("data." +:+ packagePath +:+ ".deny") _ _ _ _); [|done].
  go_simpl.
  destruct (rego_Eval ("data." +:+ packagePath +:+ ".warn") _ _ _ _); [|done].
  go_simpl.
  destruct (findings _ "ERROR" _); [|done]. go_simpl.
  destruct (findings _ "WARNING" _); done.
Qed.

Lemma evaluateEach_after (input : GoValue) (e : Evaluator)
    (packagePaths : list string) (acc : list EvaluationResult) :
  after (evaluateEach packagePaths input acc e) = e.
Proof.
  revert acc. induction packagePaths as [|p rest IH]; intros acc; [done|].
  cbn [evaluateEach]. go_simpl.
  destruct (outcome (Evaluate p input e)) as [[res|err]|why];
    go_simpl; rewrite ?Evaluate_after; [|done..].
  apply IH.
Qed.

(** The loop evaluates the packages of a prefix of its list, whatever
    comes of the calls. *)
Lemma evaluateEach_prefix (input : GoValue) (e : Evaluator)
    (packagePaths : list string) (acc : list EvaluationResult) :
  exists n,
    evaluated (trace (evaluateEach packagePaths input acc e)) =
    calls (take n packagePaths) input.
Proof.
  revert acc. induction packagePaths as [|p rest IH]; intros acc; [by exists 0|].
  cbn [evaluateEach]. go_simpl.
  destruct (outcome (Evaluate p input e)) as [[res|err]|why] eqn:Hp; go_simpl.
  - rewrite Evaluate_after. destruct (IH (acc ++ [res])) as [n Hn].
    exists (S n). by rewrite evaluated_app, Evaluate_evaluated, Hn.
  - exists 1. by rewrite evaluated_app, Evaluate_evaluated.
  - exists 1. by rewrite Evaluate_evaluated.
Qed.

Lemma calls_fst (packagePaths : list string) (input : GoValue) :
  (calls packagePaths input).*1 = packagePaths.
Proof.
  unfold calls. induction packagePaths as [|p rest IH]; [done|].
  cbn [fmap list_fmap] in *. by rewrite IH.
Qed.

(** X10. [EvaluateAll] never mutates the evaluator: however it ends, the
    evaluator after the call is the evaluator before it. *)
Theorem EvaluateAll_no_mutation (input : GoValue) (e : Evaluator) :
  after (EvaluateAll input e) = e.
Proof.
  unfold EvaluateAll. go_simpl. apply evaluateEach_after.
Qed.

(** X11. In every run of [EvaluateAll], also one that ends in an error or a
    panic, [Evaluate] is called on no package twice, only on packages that
    a loaded module declares, and only with the input given. *)
Theorem EvaluateAll_evaluates_declared_once (input : GoValue) (e : Evaluator) :
  NoDup (evaluated (trace (EvaluateAll input e))).*1 /\
  forall p i,
    (p, i) ∈ evaluated (trace (EvaluateAll input e)) ->
    i = input /\ declares (modules e) p.
Proof.
  unfold EvaluateAll. go_simpl.
  set (packagePaths := (range_map (collectPackagePaths (range_map (modules e)))).*1).
  destruct (evaluateEach_prefix input e packagePaths []) as [n ->].
  split.
  - rewrite calls_fst.
    eapply sublist_NoDup; [apply packagePaths_NoDup|apply sublist_take].
  - intros p i Hin. apply list_elem_of_fmap in Hin as (q & [= -> ->] & Hq).
    split; [done|]. apply packagePaths_declared.
    apply elem_of_take in Hq as (k & Hk & _).
    by apply list_elem_of_lookup_2 in Hk.
Qed.

(** X12. With no module loaded, [EvaluateAll] returns an empty list of
    results and no error, and evaluates nothing. *)
Theorem EvaluateAll_no_modules (input : GoValue) (e : Evaluator) :
  modules e = ∅ ->
  EvaluateAll input e = Run (Done (Ok [])) e [].
Proof.
  intros Hempty. unfold EvaluateAll. go_simpl. rewrite Hempty.
  assert (range_map (∅ : gmap string AstModule) = []) as ->.
  { apply Permutation_nil_r. rewrite range_map_perm. by rewrite map_to_list_empty. }
  cbn [collectPackagePaths foldl].
  assert (range_map (∅ : gmap string bool) = []) as ->.
  { apply Permutation_nil_r. rewrite range_map_perm. by rewrite map_to_list_empty. }
  reflexivity.
Qed.

End EvaluateMoreProperties.

(** ** More on the admission gateway *)

Section GatewayMoreProperties.
Context {B : Backend} {K : Kube} {G : Background}.

Lemma evaluateRequest_after (request : AdmissionRequest.t) (e : Evaluator) :
  after (evaluateRequest request e) = e.
Proof.
  unfold evaluateRequest. go_simpl.
  destruct (outcome (Evaluate _ _ e)) as [[result|err]|why];
    go_simpl; rewrite ?Evaluate_after; [|done..].
  by destruct (0 <? length (Violations result))%nat.
Qed.

Lemma evaluateRequest_evaluated (request : AdmissionRequest.t) (e : Evaluator) :
  evaluated (trace (evaluateRequest request e)) =
  [(requestPackagePath request, requestInput request)].
Proof.
  unfold evaluateRequest. go_simpl.
  destruct (outcome (Evaluate _ _ e)) as [[result|err]|why]; go_simpl;
    rewrite ?evaluated_app, Evaluate_evaluated; [|done..].
  by destruct (0 <? length (Violations result))%nat.
Qed.

Lemma evaluated_decode (body : string) (t : list Event) :
  evaluated (EvDecode body :: t) = evaluated t.
Proof. reflexivity. Qed.

(** The run of the handler on a decoded request, from the run of
    [evaluateRequest]. *)
Lemma handle_decoded_run (r : Request) (e : Evaluator)
    (reviewRequest : AdmissionReview.t) (request : AdmissionRequest.t) :
  decodesTo r reviewRequest request ->
  after (handleAdmissionRequest r e) = e /\
  evaluated (trace (handleAdmissionRequest r e)) =
    [(requestPackagePath request, requestInput request)].
Proof.
  intros (Hct & Hdecode & Hrequest).
  pose proof (evaluateRequest_after request e) as Hafter.
  pose proof (evaluateRequest_evaluated request e) as Hcalls.
  unfold handleAdmissionRequest. rewrite Hct, Hdecode, Hrequest.
  cbn [String.eqb Ascii.eqb Bool.eqb negb andb]. go_simpl.
  destruct (outcome (evaluateRequest request e)) as [[[allowed reason] [err|]]|why];
    go_simpl; rewrite ?Hafter, evaluated_decode, ?evaluated_app, ?Hcalls; done.
Qed.

Lemma handle_undecodable (r : Request) (e : Evaluator) (err : error) :
  Header_Get (Header r) "Content-Type" = "application/json" ->
  Decode (readBody r) = Err err ->
  handleAdmissionRequest r e =
  Run (Done (Error "Invalid AdmissionReview request" 400)) e
      [EvDecode (readBody r); EvLog ("Could not decode body: " +:+ err)].
Proof.
  intros Hct Hdecode. unfold handleAdmissionRequest. rewrite Hct, Hdecode.
  cbn [String.eqb Ascii.eqb Bool.eqb negb andb]. by go_simpl.
Qed.

Lemma handle_no_request (r : Request) (e : Evaluator)
    (reviewRequest : AdmissionReview.t) :
  Header_Get (Header r) "Content-Type" = "application/json" ->
  Decode (readBody r) = Ok reviewRequest ->
  AdmissionReview.Request reviewRequest = None ->
  handleAdmissionRequest r e =
  Run (Panicked "invalid memory address or nil pointer dereference") e
      [EvDecode (readBody r)].
Proof.
  intros Hct Hdecode Hrequest. unfold handleAdmissionRequest.
  rewrite Hct, Hdecode, Hrequest.
  cbn [String.eqb Ascii.eqb Bool.eqb negb andb]. by go_simpl.
Qed.

(** X13. A request with the accepted content type whose body does not
    decode is answered 400 Bad Request; the run decodes, logs the failure
    and does nothing else: no policy is evaluated and the evaluator is left
    as it was. *)
Theorem undecodable_body_rejected (r : Request) (e : Evaluator) (err : error) :
  Header_Get (Header r) "Content-Type" = "application/json" ->
  Decode (readBody r) = Err err ->
  handleAdmissionRequest r e =
  Run (Done (Error "Invalid AdmissionReview request" 400)) e
      [EvDecode (readBody r); EvLog ("Could not decode body: " +:+ err)].
Proof.
  intros Hct Hdecode. unfold handleAdmissionRequest. rewrite Hct, Hdecode.
  cbn [String.eqb Ascii.eqb Bool.eqb negb andb]. by go_simpl.
Qed.

(** X14. A body that decodes to a review without a request makes the
    handler panic on the nil pointer, before any policy is evaluated and
    without a reply. *)
Theorem review_without_request_panics (r : Request) (e : Evaluator)
    (reviewRequest : AdmissionReview.t) :
  Header_Get (Header r) "Content-Type" = "application/json" ->
  Decode (readBody r) = Ok reviewRequest ->
  AdmissionReview.Request reviewRequest = None ->
  handleAdmissionRequest r e =
  Run (Panicked "invalid memory address or nil pointer dereference") e
      [EvDecode (readBody r)].
Proof.
  intros Hct Hdecode Hrequest. unfold handleAdmissionRequest.
  rewrite Hct, Hdecode, Hrequest.
  cbn [String.eqb Ascii.eqb Bool.eqb negb andb]. by go_simpl.
Qed.

Lemma content_type_cases (r : Request) :
  Header_Get (Header r) "Content-Type" = "application/json" \/
  Header_Get (Header r) "Content-Type" <> "application/json".
Proof.
  destruct (decide (Header_Get (Header r) "Content-Type" = "application/json"));
    [by left|by right].
Qed.

(** X15. The handler never mutates the evaluator: whatever the request and
    however the run ends, the evaluator after it is the evaluator before. *)
Theorem handleAdmissionRequest_no_mutation (r : Request) (e : Evaluator) :
  after (handleAdmissionRequest r e) = e.
Proof.
  destruct (content_type_cases r) as [Hct|Hct].
  - destruct (Decode (readBody r)) as [reviewRequest|err] eqn:Hdecode.
    + destruct (AdmissionReview.Request reviewRequest) as [request|] eqn:Hrequest.
      * by apply (handle_decoded_run r e reviewRequest request).
      * by rewrite (handle_no_request r e reviewRequest).
    + by rewrite (handle_undecodable r e err).
  - apply String.eqb_neq in Hct.
    unfold handleAdmissionRequest. rewrite Hct. by go_simpl.
Qed.

(** X16. The only HTTP errors the handler writes are 415 for another
    content type and 400 for a body that does not decode; a denial or a
    failed evaluation is never written as an HTTP error. *)
Theorem handleAdmissionRequest_http_errors (r : Request) (e : Evaluator)
    (msg : string) (code : Z) :
  outcome (handleAdmissionRequest r e) = Done (Error msg code) <->
  (Header_Get (Header r) "Content-Type" <> "application/json" /\
   msg = "Invalid Content-Type" /\ code = 415%Z) \/
  (Header_Get (Header r) "Content-Type" = "application/json" /\
   (exists err, Decode (readBody r) = Err err) /\
   msg = "Invalid AdmissionReview request" /\ code = 400%Z).
Proof.
  destruct (content_type_cases r) as [Hct|Hct].
  - destruct (Decode (readBody r)) as [reviewRequest|err] eqn:Hdecode.
    + assert (forall reply, outcome (handleAdmissionRequest r e) = Done reply ->
                            exists review, reply = JSON review) as Hjson.
      { destruct (AdmissionReview.Request reviewRequest) as [request|] eqn:Hrequest.
        - rewrite (handle_decoded r e reviewRequest request) by done.
          intros reply. destruct (outcome (evaluateRequest request e)); [|done].
          intros [= <-]. by eexists.
        - by rewrite (handle_no_request r e reviewRequest). }
      split.
      * intros Herror. by destruct (Hjson _ Herror).
      * intros [[? _]|(_ & [? ?] & _)]; done.
    + rewrite (handle_undecodable r e err) by done. cbn [outcome]. split.
      * intros [= <- <-]. right. split; [done|]. split; [by exists err|done].
      * intros [[? _]|(_ & _ & -> & ->)]; done.
  - pose proof Hct as Hneq. apply String.eqb_neq in Hneq.
    unfold handleAdmissionRequest. rewrite Hneq. go_simpl. split.
    + intros [= <- <-]. by left.
    + intros [(_ & -> & ->)|[? _]]; done.
Qed.

(** X17. A decoded request is evaluated exactly once, against the package
    that its kind routes to and with the input built from it, also when
    the evaluation fails or panics; a request that is not decoded is not
    evaluated at all. *)
Theorem handleAdmissionRequest_evaluates_once (r : Request) (e : Evaluator) :
  (forall reviewRequest request,
      decodesTo r reviewRequest request ->
      evaluated (trace (handleAdmissionRequest r e)) =
      [(requestPackagePath request, requestInput request)]) /\
  ((forall reviewRequest request, ~ decodesTo r reviewRequest request) ->
   evaluated (trace (handleAdmissionRequest r e)) = []).
Proof.
  split.
  - intros reviewRequest request Hdecoded.
    by apply (handle_decoded_run r e reviewRequest request).
  - intros Hnot. destruct (content_type_cases r) as [Hct|Hct].
    + destruct (Decode (readBody r)) as [reviewRequest|err] eqn:Hdecode.
      * destruct (AdmissionReview.Request reviewRequest) as [request|] eqn:Hrequest.
        -- by destruct (Hnot reviewRequest request).
        -- by rewrite (handle_no_request r e reviewRequest).
      * by rewrite (handle_undecodable r e err).
    + apply String.eqb_neq in Hct.
      unfold handleAdmissionRequest. rewrite Hct. by go_simpl.
Qed.

(** X18. The reply to a decoded request depends on the evaluation result
    through its violation messages only: two evaluators whose results for
    the request have the same violation messages, whatever their warnings
    and counts, get the same reply. *)
Theorem reply_depends_on_violation_messages (r : Request) (e1 e2 : Evaluator)
    (reviewRequest : AdmissionReview.t) (request : AdmissionRequest.t)
    (res1 res2 : EvaluationResult) :
  decodesTo r reviewRequest request ->
  outcome (Evaluate (requestPackagePath request) (requestInput request) e1) =
    Done (Ok res1) ->
  outcome (Evaluate (requestPackagePath request) (requestInput request) e2) =
    Done (Ok res2) ->
  Message <$> Violations res1 = Message <$> Violations res2 ->
  outcome (handleAdmissionRequest r e1) = outcome (handleAdmissionRequest r e2).
Proof.
  intros Hdecoded H1 H2 Hsame.
  rewrite !(handle_decoded r _ reviewRequest request Hdecoded).
  rewrite !evaluateRequest_outcome, H1, H2. cbn [decisionOf]. rewrite Hsame.
  destruct (Violations res1), (Violations res2); done.
Qed.

(** X19. [newAdmissionController] returns a controller exactly when every
    policy file under the directories loads, and the controller then holds
    the evaluator that [NewEvaluator] returns; otherwise it returns the
    error of [NewEvaluator] after [failed to create policy evaluator: ].
    No controller is made over a partial policy set. *)
Theorem newAdmissionController_iff_loads (dirs : list string) :
  (loads dirs <-> exists ac, newAdmissionController dirs = Done (Ok ac)) /\
  (forall ac,
      newAdmissionController dirs = Done (Ok ac) ->
      NewEvaluator context_Background dirs = Done (Ok (evaluator ac))) /\
  (forall msg,
      newAdmissionController dirs = Done (Err msg) <->
      exists err,
        NewEvaluator context_Background dirs = Done (Err err) /\
        msg = "failed to create policy evaluator: " +:+ err).
Proof.
  unfold newAdmissionController.
  destruct (NewEvaluator_succeeds_iff_loads_aux context_Background dirs)
    as [(Hloads & e & He)|(Hfails & err & Herr)].
  - rewrite He. split; [|split].
    + split; [by eexists|done].
    + by intros ac [= <-].
    + intros msg. split; [done|]. by intros (? & ? & _).
  - rewrite Herr. split; [|split].
    + split; [done|]. by intros [? ?].
    + done.
    + intros msg. split.
      * intros [= <-]. by exists err.
      * by intros (? & [= <-] & ->).
Qed.

End GatewayMoreProperties.

(** ** The playground *)

Section PlaygroundProperties.
Context {B : Backend} {J : playground.Json}.

Ltac break_cases :=
  intros;
  repeat match goal with
         | H : _ \/ _ |- _ => destruct H
         | H : _ /\ _ |- _ => destruct H
         | H : exists _, _ |- _ => destruct H
         end;
  simplify_eq; congruence.

Lemma method_cases (r : playground.Request) :
  playground.Method r = "POST" \/ playground.Method r <> "POST".
Proof.
  destruct (decide (playground.Method r = "POST")); [by left|by right].
Qed.

(** How a run of [handleEvaluate] on a POST ends. *)
Lemma handleEvaluate_post (r : playground.Request) (e : Evaluator) :
  playground.Method r = "POST" ->
  outcome (playground.handleEvaluate r e) =
  match playground.json_Decode (playground.Body r) with
  | Err err => Done (playground.Error ("Failed to parse request: " +:+ err) 400)
  | Ok req =>
      match playground.json_Unmarshal (playground.Input req) with
      | Err err => Done (playground.Error ("Invalid input JSON: " +:+ err) 400)
      | Ok input =>
          match outcome (Evaluate (playground.PackagePath req) input e) with
          | Done (Err err) =>
              Done (playground.Error ("Policy evaluation failed: " +:+ err) 500)
          | Done (Ok res) => Done (playground.JSON res)
          | Panicked why => Panicked why
          end
      end
  end.
Proof.
  intros Hpost. unfold playground.handleEvaluate, playground.MethodPost.
  rewrite Hpost. cbn [String.eqb Ascii.eqb Bool.eqb negb andb]. go_simpl.
  destruct (playground.json_Decode (playground.Body r)) as [req|]; [|done].
  destruct (playground.json_Unmarshal (playground.Input req)) as [input|]; [|done].
  go_simpl.
  by destruct (outcome (Evaluate (playground.PackagePath req) input e)) as [[|]|].
Qed.

Lemma handleEvaluate_other_method (r : playground.Request) (e : Evaluator) :
  playground.Method r <> "POST" ->
  playground.handleEvaluate r e =
  Run (Done (playground.Error "Method not allowed" 405)) e [].
Proof.
  intros Hmethod. apply String.eqb_neq in Hmethod.
  unfold playground.handleEvaluate, playground.MethodPost.
  by rewrite Hmethod.
Qed.

(** X20. A request to the playground with another method than POST is
    answered 405 Method Not Allowed; nothing is decoded or evaluated and
    the evaluator is left as it was. *)
Theorem handleEvaluate_requires_post (r : playground.Request) (e : Evaluator) :
  playground.Method r <> "POST" ->
  playground.handleEvaluate r e =
  Run (Done (playground.Error "Method not allowed" 405)) e [].
Proof.
  intros Hmethod. apply String.eqb_neq in Hmethod.
  unfold playground.handleEvaluate, playground.MethodPost.
  by rewrite Hmethod.
Qed.

(** X21. The HTTP errors of the playground: 405 for another method, 400
    for a body that is no evaluation request, 400 for an input that is no
    JSON, and 500 with the evaluator's error after
    [Policy evaluation failed: ] when [Evaluate] returns an error; there
    are no others. *)
Theorem handleEvaluate_http_errors (r : playground.Request) (e : Evaluator)
    (msg : string) (code : Z) :
  outcome (playground.handleEvaluate r e) = Done (playground.Error msg code) <->
  (playground.Method r <> "POST" /\ msg = "Method not allowed" /\ code = 405%Z) \/
  (playground.Method r = "POST" /\
   exists err,
     playground.json_Decode (playground.Body r) = Err err /\
     msg = "Failed to parse request: " +:+ err /\ code = 400%Z) \/
  (playground.Method r = "POST" /\
   exists req err,
     playground.json_Decode (playground.Body r) = Ok req /\
     playground.json_Unmarshal (playground.Input req) = Err err /\
     msg = "Invalid input JSON: " +:+ err /\ code = 400%Z) \/
  (playground.Method r = "POST" /\
   exists req input err,
     playground.json_Decode (playground.Body r) = Ok req /\
     playground.json_Unmarshal (playground.Input req) = Ok input /\
     outcome (Evaluate (playground.PackagePath req) input e) = Done (Err err) /\
     msg = "Policy evaluation failed: " +:+ err /\ code = 500%Z).
Proof.
  destruct (method_cases r) as [Hpost|Hother].
  - rewrite (handleEvaluate_post r e Hpost).
    destruct (playground.json_Decode (playground.Body r)) as [req|derr] eqn:Hreq.
    + destruct (playground.json_Unmarshal (playground.Input req)) as [input|uerr] eqn:Hinput.
      * destruct (outcome (Evaluate (playground.PackagePath req) input e))
          as [[res|eerr]|why] eqn:Heval; (split; [|by break_cases]).
        -- done.
        -- intros [= <- <-]. do 3 right. split; [done|]. by exists req, input, eerr.
        -- done.
      * split; [|by break_cases].
        intros [= <- <-]. right. right. left. split; [done|]. by exists req, uerr.
    + split; [|by break_cases].
      intros [= <- <-]. right. left. split; [done|]. by exists derr.
  - rewrite (handleEvaluate_other_method r e Hother). cbn [outcome].
    split; [|by break_cases]. intros [= <- <-]. by left.
Qed.

(** X22. The playground replies with a result exactly when the request is
    a POST whose body and input decode and [Evaluate], called on the package
    path of the request as it is written and on the decoded input, returns
    that result; the result is passed on whole, warnings and counts
    included. *)
Theorem handleEvaluate_result (r : playground.Request) (e : Evaluator)
    (res : EvaluationResult) :
  outcome (playground.handleEvaluate r e) = Done (playground.JSON res) <->
  playground.Method r = "POST" /\
  exists req input,
    playground.json_Decode (playground.Body r) = Ok req /\
    playground.json_Unmarshal (playground.Input req) = Ok input /\
    outcome (Evaluate (playground.PackagePath req) input e) = Done (Ok res).
Proof.
  destruct (method_cases r) as [Hpost|Hother].
  - rewrite (handleEvaluate_post r e Hpost).
    destruct (playground.json_Decode (playground.Body r)) as [req|derr] eqn:Hreq.
    + destruct (playground.json_Unmarshal (playground.Input req)) as [input|uerr] eqn:Hinput.
      * destruct (outcome (Evaluate (playground.PackagePath req) input e))
          as [[res'|eerr]|why] eqn:Heval; (split; [|by break_cases]).
        -- intros [= <-]. split; [done|]. by exists req, input.
        -- done.
        -- done.
      * split; [done|by break_cases].
    + split; [done|by break_cases].
  - rewrite (handleEvaluate_other_method r e Hother). cbn [outcome].
    split; [done|by break_cases].
Qed.

(** X23. The policy text of an evaluation request is ignored: two POSTs
    whose bodies decode to requests with the same input and the same
    package path end alike, whatever their policy texts. *)
Theorem handleEvaluate_ignores_policy_text (r1 r2 : playground.Request)
    (e : Evaluator) (req1 req2 : playground.EvaluationRequest) :
  playground.Method r1 = "POST" ->
  playground.Method r2 = "POST" ->
  playground.json_Decode (playground.Body r1) = Ok req1 ->
  playground.json_Decode (playground.Body r2) = Ok req2 ->
  playground.Input req1 = playground.Input req2 ->
  playground.PackagePath req1 = playground.PackagePath req2 ->
  outcome (playground.handleEvaluate r1 e) = outcome (playground.handleEvaluate r2 e).
Proof.
  intros Hpost1 Hpost2 Hreq1 Hreq2 Hinput Hpath.
  rewrite (handleEvaluate_post r1 e Hpost1), (handleEvaluate_post r2 e Hpost2).
  by rewrite Hreq1, Hreq2, Hinput, Hpath.
Qed.

(** X24. The playground handler never mutates the evaluator, and evaluates
    at most once per request: not at all unless body and input decode, and
    then the package path of the request with the decoded input. *)
Theorem handleEvaluate_frame (r : playground.Request) (e : Evaluator) :
  after (playground.handleEvaluate r e) = e /\
  (evaluated (trace (playground.handleEvaluate r e)) = [] \/
   exists req input,
     playground.json_Decode (playground.Body r) = Ok req /\
     playground.json_Unmarshal (playground.Input req) = Ok input /\
     evaluated (trace (playground.handleEvaluate r e)) =
       [(playground.PackagePath req, input)]).
Proof.
  destruct (method_cases r) as [Hpost|Hother].
  - unfold playground.handleEvaluate, playground.MethodPost.
    rewrite Hpost. cbn [String.eqb Ascii.eqb Bool.eqb negb andb]. go_simpl.
    destruct (playground.json_Decode (playground.Body r)) as [req|derr] eqn:Hreq;
      [|split; [done|by left]].
    destruct (playground.json_Unmarshal (playground.Input req)) as [input|uerr]
      eqn:Hinput; [|split; [done|by left]].
    go_simpl.
    pose proof (Evaluate_after (playground.PackagePath req) input e) as Hafter.
    pose proof (Evaluate_evaluated (playground.PackagePath req) input e) as Hcalls.
    split.
    + destruct (outcome (Evaluate _ input e)) as [[|]|]; go_simpl; by rewrite ?Hafter.
    + right. exists req, input. split; [done|]. split; [done|].
      destruct (outcome (Evaluate _ input e)) as [[|]|]; go_simpl;
        by rewrite evaluated_decode, ?evaluated_app, ?Hcalls.
  - rewrite (handleEvaluate_other_method r e Hother). split; [done|by left].
Qed.

Lemma appendDirs_filter (dirs : list string) (entries : list playground.DirEntry) :
  playground.appendDirs dirs entries =
  dirs ++ (playground.Name <$> filter (fun entry => playground.IsDir entry = true) entries).
Proof.
  revert dirs. induction entries as [|entry rest IH]; intros dirs.
  - by rewrite app_nil_r.
  - cbn [playground.appendDirs]. rewrite IH, filter_cons.
    destruct (playground.IsDir entry) eqn:Hdir.
    + rewrite decide_True by done. cbn [fmap list_fmap]. by rewrite <- app_assoc.
    + by rewrite decide_False by done.
Qed.

(** X25. [listDirectories] passes on the error of reading the directory;
    otherwise it returns the names of the entries that are directories, in
    the order of the listing and leaving every other entry out. *)
Theorem listDirectories_lists_directories (dir : string) :
  match playground.os_ReadDir dir with
  | Err err => playground.listDirectories dir = Err err
  | Ok entries =>
      playground.listDirectories dir =
      Ok (playground.Name <$>
            filter (fun entry => playground.IsDir entry = true) entries)
  end.
Proof.
  unfold playground.listDirectories.
  destruct (playground.os_ReadDir dir) as [entries|err]; [|done].
  by rewrite appendDirs_filter.
Qed.

End PlaygroundProperties.

(** * The statements in the concrete world *)

Import demo.

Ltac by_running := vm_compute; reflexivity.

Lemma abc123_decodes :
  decodesTo (post "application/json" "abc-123") (review (Some (pod "abc-123")))
            (pod "abc-123").
Proof. repeat split. Defined.

(** The UID [abc-123] comes back on a denied and on an allowed request. *)
Lemma response_echoes_uid_witness :
  (exists response,
      outcome (handleAdmissionRequest (post "application/json" "abc-123")
                                      (evaluator podRules)) =
        Done (JSON (reviewOf (review (Some (pod "abc-123"))) response)) /\
      AdmissionResponse.UID response = "abc-123" /\
      AdmissionResponse.Allowed response = false) /\
  (exists response,
      outcome (handleAdmissionRequest (post "application/json" "abc-123")
                                      (evaluator podWarns)) =
        Done (JSON (reviewOf (review (Some (pod "abc-123"))) response)) /\
      AdmissionResponse.UID response = "abc-123" /\
      AdmissionResponse.Allowed response = true).
Proof.
  split.
  - destruct (response_echoes_uid (post "application/json" "abc-123") (evaluator podRules)
                (review (Some (pod "abc-123"))) (pod "abc-123") abc123_decodes)
      as (_ & Hreturned & _).
    apply (Hreturned false "privileged; host network" None). by_running.
  - destruct (response_echoes_uid (post "application/json" "abc-123") (evaluator podWarns)
                (review (Some (pod "abc-123"))) (pod "abc-123") abc123_decodes)
      as (_ & Hreturned & _).
    apply (Hreturned true "" None). by_running.
Defined.

(** A run-time conflict in the pod policy denies the request. *)
Lemma evaluation_error_fails_closed_witness :
  outcome (handleAdmissionRequest (post "application/json" "abc-123") (evaluator podFails)) =
  Done (JSON (reviewOf (review (Some (pod "abc-123")))
    {| AdmissionResponse.UID := "abc-123";
       AdmissionResponse.Allowed := false;
       AdmissionResponse.Result :=
         Some {| Status.Message :=
                   "Error evaluating request: policy evaluation failed: evaluation failed: eval_conflict_error" |} |})).
Proof.
  apply (evaluation_error_fails_closed (post "application/json" "abc-123")
           (evaluator podFails) (review (Some (pod "abc-123"))) (pod "abc-123")
           "evaluation failed: eval_conflict_error" abc123_decodes).
  by_running.
Defined.

(** No module at all: the pod package is unresolved, and evaluates to the
    result without findings. *)
Lemma Evaluate_unresolved_witness :
  ~ declares (∅ : gmap string RegoFile) "kubernetes.admission.pod" /\
  outcome (Evaluate "kubernetes.admission.pod" VNil (evaluator ∅)) = Done (Ok noFindings).
Proof.
  split.
  - intros (path & module & Hlookup & _). by rewrite lookup_empty in Hlookup.
  - apply (Evaluate_unresolved "kubernetes.admission.pod" VNil (evaluator ∅) []);
      by_running.
Defined.

(** C3, as stated, fails: no function of the [EvaluationResult] tells a
    package that no module declares from a declared package without
    findings, since [Evaluate] returns the same result for both. *)
Lemma no_resolved_flag :
  ~ exists resolved : EvaluationResult -> bool,
      forall (mods : gmap string RegoFile) (packagePath : string) (res : EvaluationResult),
        outcome (Evaluate packagePath VNil (evaluator mods)) = Done (Ok res) ->
        (resolved res = true <-> declares mods packagePath).
Proof.
  intros [resolved Hflag].
  assert (outcome (Evaluate "kubernetes.admission.pod" VNil (evaluator podQuiet)) =
          Done (Ok noFindings)) as Hquiet by by_running.
  assert (outcome (Evaluate "kubernetes.admission.pod" VNil (evaluator ∅)) =
          Done (Ok noFindings)) as Hnone by by_running.
  apply Hflag in Hquiet. apply Hflag in Hnone.
  assert (declares podQuiet "kubernetes.admission.pod") as Hdeclared.
  { eexists "policies/pod.rego", _. split; [apply lookup_singleton_eq|reflexivity]. }
  apply Hquiet, Hnone in Hdeclared.
  destruct Hdeclared as (path & module & Hlookup & _).
  by rewrite lookup_empty in Hlookup.
Qed.

(** C4, as stated, fails: two violations that [Evaluate] returns out of
    lexical order are joined in that order, not sorted. *)
Lemma reason_not_sorted :
  exists result response,
    outcome (Evaluate (requestPackagePath (pod "abc-123")) (requestInput (pod "abc-123"))
                      (evaluator podRules)) = Done (Ok result) /\
    Violations result <> [] /\
    outcome (handleAdmissionRequest (post "application/json" "abc-123")
                                    (evaluator podRules)) =
      Done (JSON (reviewOf (review (Some (pod "abc-123"))) response)) /\
    AdmissionResponse.Allowed response = false /\
    AdmissionResponse.Result response =
      Some {| Status.Message := "privileged; host network" |} /\
    spec_sortedReason (Violations result) = "host network; privileged" /\
    AdmissionResponse.Result response <>
      Some {| Status.Message := spec_sortedReason (Violations result) |}.
Proof.
  eexists _, _.
  split; [by_running|].
  split; [discriminate|].
  split; [by_running|].
  split; [reflexivity|].
  split; [reflexivity|].
  split; [by_running|].
  vm_compute. discriminate.
Qed.

(** Two violations deny the pod with both messages, in the order found. *)
Lemma violations_deny_with_joined_reason_witness :
  outcome (handleAdmissionRequest (post "application/json" "abc-123") (evaluator podRules)) =
  Done (JSON (reviewOf (review (Some (pod "abc-123")))
    {| AdmissionResponse.UID := "abc-123";
       AdmissionResponse.Allowed := false;
       AdmissionResponse.Result :=
         Some {| Status.Message := "privileged; host network" |} |})).
Proof.
  apply (violations_deny_with_joined_reason (post "application/json" "abc-123")
           (evaluator podRules) (review (Some (pod "abc-123"))) (pod "abc-123")
           {| Violations :=
                [{| Message := "privileged"; Severity := "ERROR";
                    Policy := "kubernetes.admission.pod" |};
                 {| Message := "host network"; Severity := "ERROR";
                    Policy := "kubernetes.admission.pod" |}];
              Warnings :=
                [{| Message := "latest tag"; Severity := "WARNING";
                    Policy := "kubernetes.admission.pod" |}];
              PassCount := 0; FailCount := 2; WarnCount := 1 |}
           abc123_decodes).
  - by_running.
  - discriminate.
Defined.

(** A pod that only draws a warning is allowed, without a message. *)
Lemma no_violations_allowed_witness :
  (exists result,
      outcome (Evaluate (requestPackagePath (pod "abc-123")) (requestInput (pod "abc-123"))
                        (evaluator podWarns)) = Done (Ok result) /\
      Violations result = [] /\
      Warnings result <> []) /\
  outcome (handleAdmissionRequest (post "application/json" "abc-123") (evaluator podWarns)) =
  Done (JSON (reviewOf (review (Some (pod "abc-123")))
    {| AdmissionResponse.UID := "abc-123";
       AdmissionResponse.Allowed := true;
       AdmissionResponse.Result := None |})).
Proof.
  pose (result := {| Violations := [];
                     Warnings := [finding "WARNING" "kubernetes.admission.pod" "latest tag"];
                     PassCount := 0; FailCount := 0; WarnCount := 1 |}).
  assert (outcome (Evaluate (requestPackagePath (pod "abc-123"))
                            (requestInput (pod "abc-123")) (evaluator podWarns)) =
          Done (Ok result)) as Hresult by by_running.
  split.
  - exists result. split; [done|]. split; [reflexivity|discriminate].
  - apply (no_violations_allowed (post "application/json" "abc-123")
             (evaluator podWarns) (review (Some (pod "abc-123"))) (pod "abc-123")
             result abc123_decodes Hresult).
    reflexivity.
Defined.

(** A JSON media type with a charset parameter is turned away with 415. *)
Lemma other_content_type_rejected_witness :
  outcome (handleAdmissionRequest (post "application/json; charset=utf-8" "abc-123")
                                  (evaluator podRules)) =
  Done (Error "Invalid Content-Type" 415).
Proof.
  destruct (other_content_type_rejected
              (post "application/json; charset=utf-8" "abc-123") (evaluator podRules))
    as [Hrun _].
  - vm_compute. discriminate.
  - by rewrite Hrun.
Defined.

Lemma broken_fails_to_parse :
  failsToParse (file "policies/bad/broken.rego") "rego_parse_error: package expected".
Proof.
  repeat split. by exists "packag kubernetes".
Defined.

(** The second root holds an unparsable file after one that parses: the
    load is refused, and the error names the unparsable file. *)
Lemma NewEvaluator_aborts_on_parse_error_witness :
  "policies/bad" ∈ ["policies/good"; "policies/bad"] /\
  file "policies/bad/broken.rego" ∈ Walk "policies/bad" /\
  failsToParse (file "policies/bad/broken.rego") "rego_parse_error: package expected" /\
  NewEvaluator (B := backend) tt ["policies/good"; "policies/bad"] =
  Done (Err "failed to load policies from policies/bad: failed to parse policy file policies/bad/broken.rego: rego_parse_error: package expected").
Proof.
  assert ("policies/bad" ∈ ["policies/good"; "policies/bad"]) as Hdir
    by (right; left).
  assert (file "policies/bad/broken.rego" ∈ Walk "policies/bad") as Hvisit
    by (right; right; left).
  split; [done|]. split; [done|]. split; [apply broken_fails_to_parse|].
  destruct (NewEvaluator_aborts_on_parse_error (B := backend) tt
              ["policies/good"; "policies/bad"]
              "policies/bad" (file "policies/bad/broken.rego")
              "rego_parse_error: package expected" Hdir Hvisit broken_fails_to_parse)
    as [_ Hnames].
  apply (Hnames ["policies/good"] [] [dir "policies/bad"; file "policies/bad/a.rego"]
                [file "policies/bad/z.rego"]); [reflexivity|reflexivity|..].
  - intros d u Hd Hu. apply list_elem_of_singleton in Hd as ->.
    vm_compute in Hu. repeat (apply elem_of_cons in Hu as [->|Hu]; [by_running|]).
    by apply elem_of_nil in Hu.
  - intros u Hu. repeat (apply elem_of_cons in Hu as [->|Hu]; [by_running|]).
    by apply elem_of_nil in Hu.
Defined.

(** C7, as stated, fails: with the packages [iam] and [storage] loaded and
    [iam] ranged over first, the error of [iam] ends the call; [storage],
    which evaluates to a result, is never evaluated. *)
Lemma EvaluateAll_aborts_remaining :
  let r := @EvaluateAll backend backwards VNil (evaluator twoPackages) in
  declares twoPackages "storage" /\
  (exists res, outcome (Evaluate "storage" VNil (evaluator twoPackages)) = Done (Ok res)) /\
  outcome r =
    Done (Err "failed to evaluate package iam: evaluation failed: eval_conflict_error") /\
  evaluated (trace r) = [("iam", VNil)] /\
  ("storage", VNil) ∉ evaluated (trace r).
Proof.
  intros r. split.
  { exists "policies/storage.rego", (policy "storage" (messages ["public bucket"]) None None).
    split; by_running. }
  split; [eexists; by_running|].
  split; [by_running|].
  assert (evaluated (trace r) = [("iam", VNil)]) as -> by by_running.
  split; [done|].
  intros Hin. by apply list_elem_of_singleton in Hin.
Qed.

(** With the pod rules alone loaded, the one package is evaluated once and
    its result returned.  With [iam] and [storage] loaded, under both range
    orders, the call ends with the error of [iam]: after [iam] alone, or
    after [storage] and [iam]. *)
Lemma EvaluateAll_until_first_error_witness :
  (outcome (@EvaluateAll backend forwards VNil (evaluator podWarns)) =
     Done (Ok [{| Violations := [];
                  Warnings := [finding "WARNING" "kubernetes.admission.pod" "latest tag"];
                  PassCount := 0; FailCount := 0; WarnCount := 1 |}]) /\
   evaluated (trace (@EvaluateAll backend forwards VNil (evaluator podWarns))) =
     [("kubernetes.admission.pod", VNil)]) /\
  (outcome (@EvaluateAll backend backwards VNil (evaluator twoPackages)) =
     Done (Err "failed to evaluate package iam: evaluation failed: eval_conflict_error") /\
   evaluated (trace (@EvaluateAll backend backwards VNil (evaluator twoPackages))) =
     [("iam", VNil)]) /\
  (outcome (@EvaluateAll backend forwards VNil (evaluator twoPackages)) =
     Done (Err "failed to evaluate package iam: evaluation failed: eval_conflict_error") /\
   evaluated (trace (@EvaluateAll backend forwards VNil (evaluator twoPackages))) =
     [("storage", VNil); ("iam", VNil)]).
Proof.
  split; [|split].
  - destruct (@EvaluateAll_until_first_error backend forwards VNil (evaluator podWarns))
      as (_ & _ & Hall & _).
    apply Hall. unfold allEvaluate.
    match goal with
    | |- Forall2 _ ?l _ => replace l with ["kubernetes.admission.pod"] by by_running
    end.
    constructor; [by_running|constructor].
  - destruct (@EvaluateAll_until_first_error backend backwards VNil (evaluator twoPackages))
      as (_ & _ & _ & Hstops).
    apply (Hstops [] "iam" ["storage"] [] "evaluation failed: eval_conflict_error");
      [by_running|constructor|by_running].
  - destruct (@EvaluateAll_until_first_error backend forwards VNil (evaluator twoPackages))
      as (_ & _ & _ & Hstops).
    apply (Hstops ["storage"] "iam" []
             [{| Violations := [finding "ERROR" "storage" "public bucket"];
                 Warnings := []; PassCount := 0; FailCount := 1; WarnCount := 0 |}]
             "evaluation failed: eval_conflict_error");
      [by_running|constructor; [by_running|constructor]|by_running].
Defined.

(** Two calls on the pod rules, the engine answering the second in the
    opposite order: the violations come in different orders and are the
    same two. *)
Lemma Evaluate_deterministic_witness :
  outcome (Evaluate "kubernetes.admission.pod" VNil (evaluator podRules)) =
    Done (Ok podRulesResult) /\
  outcome (Evaluate (B := withEngine EvalReversed) "kubernetes.admission.pod" VNil
             (atEngine EvalReversed
                (after (Evaluate "kubernetes.admission.pod" VNil (evaluator podRules))))) =
    Done (Ok podRulesReversedResult) /\
  Violations podRulesResult <> Violations podRulesReversedResult /\
  exists res1 res2,
    outcome (Evaluate "kubernetes.admission.pod" VNil (evaluator podRules)) =
      Done (Ok res1) /\
    outcome (Evaluate (B := withEngine EvalReversed) "kubernetes.admission.pod" VNil
               (atEngine EvalReversed
                  (after (Evaluate "kubernetes.admission.pod" VNil (evaluator podRules))))) =
      Done (Ok res2) /\
    (forall v, v ∈ Violations res1 <-> v ∈ Violations res2) /\
    (forall w, w ∈ Warnings res1 <-> w ∈ Warnings res2) /\
    FailCount res1 = FailCount res2 /\
    WarnCount res1 = WarnCount res2.
Proof.
  split; [by_running|]. split; [by_running|]. split; [discriminate|].
  apply (Evaluate_deterministic (B := backend) EvalReversed
           "kubernetes.admission.pod" VNil (evaluator podRules)
           ["privileged"; "host network"] ["host network"; "privileged"]
           ["latest tag"] ["latest tag"]).
  - exists [],
      (answer "data.kubernetes.admission.pod.deny"
              (VSlice [VString "privileged"; VString "host network"])),
      (answer "data.kubernetes.admission.pod.warn" (VSlice [VString "latest tag"])).
    split; [by_running|]. split; [by_running|]. split; [by_running|].
    split; by right.
  - exists [],
      (answer "data.kubernetes.admission.pod.deny"
              (VSlice [VString "host network"; VString "privileged"])),
      (answer "data.kubernetes.admission.pod.warn" (VSlice [VString "latest tag"])).
    split; [by_running|]. split; [by_running|]. split; [by_running|].
    split; by right.
  - apply Permutation_swap.
  - reflexivity.
Defined.

Lemma good_loads :
  NewEvaluator (B := backend) tt ["policies/good"] = Done (Ok goodEvaluator).
Proof. reflexivity. Qed.

(** The load of the good directory: its one policy file is the one key of
    the module map. *)
Lemma NewEvaluator_modules_witness :
  NewEvaluator (B := backend) tt ["policies/good"] = Done (Ok goodEvaluator) /\
  policyDirs goodEvaluator = ["policies/good"] /\
  ctx goodEvaluator = tt /\
  store goodEvaluator = tt /\
  (forall path module,
      modules goodEvaluator !! path = Some module <->
      visitedPolicy (B := backend) ["policies/good"] path /\
      parsed (B := backend) path = Some module) /\
  (forall path,
      is_Some (modules goodEvaluator !! path) -> strings_HasSuffix path ".rego" = true).
Proof.
  split; [exact good_loads|].
  exact (NewEvaluator_modules (B := backend) tt ["policies/good"] goodEvaluator good_loads).
Defined.

(** Listing the good directory twice loads the same modules as listing it
    once. *)
Lemma NewEvaluator_order_irrelevant_witness :
  exists e',
    NewEvaluator (B := backend) tt ["policies/good"; "policies/good"] = Done (Ok e') /\
    modules e' = modules goodEvaluator.
Proof.
  apply (NewEvaluator_order_irrelevant (B := backend) tt
           ["policies/good"] ["policies/good"; "policies/good"] goodEvaluator).
  - intros d. rewrite !elem_of_cons. tauto.
  - exact good_loads.
Defined.

(** A root that does not exist: the walk's own error comes back, after the
    directory it was loading. *)
Lemma NewEvaluator_error_is_first_failure_witness :
  NewEvaluator (B := backend) tt ["policies/good"; "nowhere"] =
    Done (Err "failed to load policies from nowhere: lstat nowhere: no such file or directory") /\
  exists before dir later seen v unseen err,
    ["policies/good"; "nowhere"] = before ++ dir :: later /\
    Walk dir = seen ++ v :: unseen /\
    loads (B := backend) before /\
    (forall u, u ∈ seen -> loadError u = None) /\
    "failed to load policies from nowhere: lstat nowhere: no such file or directory" =
      "failed to load policies from " +:+ dir +:+ ": " +:+ err /\
    (visitErr v = Some err \/
     (isPolicyFile v = true /\ exists e,
        ReadFile (visitPath v) = Err e /\
        err = "failed to read policy file " +:+ visitPath v +:+ ": " +:+ e) \/
     (exists e, failsToParse v e /\
        err = "failed to parse policy file " +:+ visitPath v +:+ ": " +:+ e)).
Proof.
  assert (NewEvaluator (B := backend) tt ["policies/good"; "nowhere"] =
          Done (Err "failed to load policies from nowhere: lstat nowhere: no such file or directory"))
    as Herr by by_running.
  split; [exact Herr|].
  exact (NewEvaluator_error_is_first_failure (B := backend) tt
           ["policies/good"; "nowhere"] _ Herr).
Defined.

Lemma podRules_evaluate :
  outcome (Evaluate "kubernetes.admission.pod" VNil (evaluator podRules)) =
  Done (Ok podRulesResult).
Proof. by_running. Qed.

(** The result for the pod rules: two errors and one warning, counted. *)
Lemma Evaluate_result_invariants_witness :
  PassCount podRulesResult = 0%Z /\
  FailCount podRulesResult = Z.of_nat (length (Violations podRulesResult)) /\
  WarnCount podRulesResult = Z.of_nat (length (Warnings podRulesResult)) /\
  Forall (fun v => Severity v = "ERROR" /\ Policy v = "kubernetes.admission.pod")
         (Violations podRulesResult) /\
  Forall (fun w => Severity w = "WARNING" /\ Policy w = "kubernetes.admission.pod")
         (Warnings podRulesResult).
Proof.
  exact (Evaluate_result_invariants "kubernetes.admission.pod" VNil
           (evaluator podRules) podRulesResult podRules_evaluate).
Defined.

(** The pod rules carry two denials and one warning, and so does the
    result. *)
Lemma Evaluate_findings_witness :
  exists res,
    outcome (Evaluate "kubernetes.admission.pod" VNil (evaluator podRules)) = Done (Ok res) /\
    Message <$> Violations res = ["privileged"; "host network"] /\
    Message <$> Warnings res = ["latest tag"].
Proof.
  apply (Evaluate_findings "kubernetes.admission.pod" VNil (evaluator podRules)
           []
           (answer "data.kubernetes.admission.pod.deny"
                   (VSlice [VString "privileged"; VString "host network"]))
           (answer "data.kubernetes.admission.pod.warn" (VSlice [VString "latest tag"])));
    [by_running|by_running|by_running|by right|by right].
Defined.

(** With no module loaded, nothing is evaluated and the list of results is
    empty, under either range order. *)
Lemma EvaluateAll_no_modules_witness :
  (outcome (@EvaluateAll backend forwards VNil (evaluator ∅)) = Done (Ok []) /\
   trace (@EvaluateAll backend forwards VNil (evaluator ∅)) = []) /\
  (outcome (@EvaluateAll backend backwards VNil (evaluator ∅)) = Done (Ok []) /\
   trace (@EvaluateAll backend backwards VNil (evaluator ∅)) = []).
Proof.
  split.
  - rewrite (@EvaluateAll_no_modules backend forwards VNil (evaluator ∅)) by reflexivity.
    split; reflexivity.
  - rewrite (@EvaluateAll_no_modules backend backwards VNil (evaluator ∅)) by reflexivity.
    split; reflexivity.
Defined.

(** An empty body with the accepted content type: 400, and no evaluation. *)
Lemma undecodable_body_rejected_witness :
  outcome (handleAdmissionRequest (post "application/json" "") (evaluator podRules)) =
    Done (Error "Invalid AdmissionReview request" 400) /\
  evaluated (trace (handleAdmissionRequest (post "application/json" "")
                                           (evaluator podRules))) = [] /\
  after (handleAdmissionRequest (post "application/json" "") (evaluator podRules)) =
    evaluator podRules.
Proof.
  rewrite (undecodable_body_rejected (post "application/json" "") (evaluator podRules)
             "unexpected end of JSON input") by reflexivity.
  repeat split; reflexivity.
Defined.

(** The body [{}] decodes to a review without a request: the handler
    panics. *)
Lemma review_without_request_panics_witness :
  outcome (handleAdmissionRequest (post "application/json" "{}") (evaluator podRules)) =
    Panicked "invalid memory address or nil pointer dereference" /\
  evaluated (trace (handleAdmissionRequest (post "application/json" "{}")
                                           (evaluator podRules))) = [].
Proof.
  rewrite (review_without_request_panics (post "application/json" "{}")
             (evaluator podRules) (review None)) by reflexivity.
  split; reflexivity.
Defined.

(** The pod rules with and without their warning draw the same reply. *)
Lemma reply_depends_on_violation_messages_witness :
  outcome (handleAdmissionRequest (post "application/json" "abc-123") (evaluator podRules)) =
  outcome (handleAdmissionRequest (post "application/json" "abc-123")
                                  (evaluator podRulesOnly)).
Proof.
  apply (reply_depends_on_violation_messages (post "application/json" "abc-123")
           (evaluator podRules) (evaluator podRulesOnly)
           (review (Some (pod "abc-123"))) (pod "abc-123")
           podRulesResult podRulesOnlyResult abc123_decodes);
    [by_running|by_running|reflexivity].
Defined.

(** A GET to the playground: 405, and nothing else happens. *)
Lemma handleEvaluate_requires_post_witness :
  outcome (playground.handleEvaluate (request "GET" "package x") (evaluator podRules)) =
    Done (playground.Error "Method not allowed" 405) /\
  trace (playground.handleEvaluate (request "GET" "package x") (evaluator podRules)) = [].
Proof.
  rewrite (handleEvaluate_requires_post (request "GET" "package x") (evaluator podRules))
    by discriminate.
  split; reflexivity.
Defined.

(** Two POSTs that differ in their policy text end alike. *)
Lemma handleEvaluate_ignores_policy_text_witness :
  playground.PolicyText
    {| playground.Input := "{}"; playground.PackagePath := "kubernetes.admission.pod";
       playground.PolicyText := "package a" |} <>
  playground.PolicyText
    {| playground.Input := "{}"; playground.PackagePath := "kubernetes.admission.pod";
       playground.PolicyText := "package b" |} /\
  outcome (playground.handleEvaluate (request "POST" "package a") (evaluator podRules)) =
  outcome (playground.handleEvaluate (request "POST" "package b") (evaluator podRules)).
Proof.
  split; [discriminate|].
  apply (handleEvaluate_ignores_policy_text (request "POST" "package a")
           (request "POST" "package b") (evaluator podRules)
           {| playground.Input := "{}"; playground.PackagePath := "kubernetes.admission.pod";
              playground.PolicyText := "package a" |}
           {| playground.Input := "{}"; playground.PackagePath := "kubernetes.admission.pod";
              playground.PolicyText := "package b" |});
    reflexivity.
Defined.

(** A [deny] rule that is a string: [Evaluate] panics. *)
Lemma Evaluate_panics_iff_witness :
  exists why,
    outcome (Evaluate "kubernetes.admission.pod" VNil (evaluator podString)) = Panicked why.
Proof.
  apply (Evaluate_panics_iff "kubernetes.admission.pod" VNil (evaluator podString)).
  exists [], (answer "data.kubernetes.admission.pod.deny" (VString "no privileged pods")), [].
  split; [by_running|]. split; [by_running|]. split; [by_running|].
  left. intros msgs [[Hnil _]|Hslice]; discriminate.
Defined.
